(** * Zeno crawler: the WARC hand-off and the capture orchestrator

    A shallow embedding of [internal/pkg/crawl/warc.go] and of the capture
    file of the same package ([captureWithBrowser], [captureWithGET],
    [Capture]).

    Go values are modelled as follows.
    - [string] and [[]byte] are both byte sequences: [string].
    - [error] is an optional message; [None] is Go's [nil].
    - [map[string]string] (the WARC header) is a [gmap string string].
    - A function returning [(T, error)] returns a pair: Go hands back both
      components, and [writeWARC] really returns a path next to an error.
    - Everything a function mutates outside its own frame (the file system,
      the channel to the WARC writer, the rate counter) lives in [World] and
      is threaded through the state monad [M].
    - What the standard library, third-party packages and the helpers of the
      package that live in other files answer is given by a [Platform]. *)

From Stdlib Require Import ZArith String Ascii List.
From stdpp Require Import base gmap strings list fin_maps pretty.

Open Scope string_scope.
Open Scope list_scope.
Open Scope Z_scope.

(** Go's [error] interface, identified by its message. *)
Definition error : Type := string.

(** A call returning [(T, error)] whose [T] is only meaningful on success. *)
Inductive result (A : Type) : Type :=
| Ok (a : A)
| Err (e : error).
Arguments Ok {A} a.
Arguments Err {A} e.

(** ** Library data the package works on *)

Module io.
(** An [io.Reader] that is read once, front to back: it yields [data] and
    then either end-of-file ([fault = None]) or an error. *)
Record Reader : Type := { data : string; fault : option error }.

(** [ioutil.ReadAll]: every byte up to end-of-file, or the reader's error. *)
Definition ReadAll (r : Reader) : result string :=
  match fault r with
  | None => Ok (data r)
  | Some e => Err e
  end.
End io.

Module url.
Record URL : Type :=
  { Scheme : string; Host : string; Path : string; RawQuery : string }.

Definition is_unreserved (a : ascii) : bool :=
  let n := nat_of_ascii a in
  ((48 <=? n) && (n <=? 57))%nat || ((65 <=? n) && (n <=? 90))%nat
  || ((97 <=? n) && (n <=? 122))%nat
  || (n =? 45)%nat || (n =? 46)%nat || (n =? 95)%nat || (n =? 126)%nat.

Definition upperhex (n : nat) : ascii :=
  match String.get n "0123456789ABCDEF" with
  | Some a => a
  | None => "0"%char
  end.

(** [url.QueryEscape]: letters, digits and [-_.~] stay, a space becomes
    [+], every other byte becomes [%XX]. *)
Fixpoint QueryEscape (s : string) : string :=
  match s with
  | EmptyString => EmptyString
  | String a s' =>
      if is_unreserved a then String a (QueryEscape s')
      else if (nat_of_ascii a =? 32)%nat then String "+"%char (QueryEscape s')
      else String "%"%char
             (String (upperhex (nat_of_ascii a / 16))
                (String (upperhex (nat_of_ascii a mod 16)) (QueryEscape s')))
  end.
End url.

Module http.
Record Request : Type := { Method : string; URL : url.URL }.

Record Response : Type :=
  { StatusCode : Z;
    ContentLength : Z;          (* int64; -1 when the length is unknown *)
    Body : io.Reader;
    Request_of : Request }.         (* the field resp.Request *)
End http.

Module warc.
(** [warc.Record]: [Content] is an [io.Reader] or nil, [PayloadPath] a
    file the writer reads the payload from, or the empty string. *)
Record Record_ : Type :=
  { Header : gmap string string;
    Content : option string;
    PayloadPath : string }.

(** [warc.RecordBatch]: [Done] is a [chan bool] or nil; a channel is
    identified by the number [make] gave it. *)
Record RecordBatch : Type :=
  { Records : list Record_;
    Done : option nat }.

Definition NewRecord : Record_ :=
  {| Header := ∅; Content := None; PayloadPath := "" |}.

Definition NewRecordBatch : RecordBatch :=
  {| Records := []; Done := None |}.

(** [r.Header.Set(key, value)]; keys are taken as the caller writes them. *)
Definition Header_Set (key value : string) (r : Record_) : Record_ :=
  {| Header := <[key := value]> (Header r);
     Content := Content r;
     PayloadPath := PayloadPath r |}.

Definition set_Content (s : string) (r : Record_) : Record_ :=
  {| Header := Header r; Content := Some s; PayloadPath := PayloadPath r |}.

Definition set_PayloadPath (p : string) (r : Record_) : Record_ :=
  {| Header := Header r; Content := Content r; PayloadPath := p |}.

Definition set_Records (rs : list Record_) (b : RecordBatch) : RecordBatch :=
  {| Records := rs; Done := Done b |}.

Definition set_Done (ch : nat) (b : RecordBatch) : RecordBatch :=
  {| Records := Records b; Done := Some ch |}.
End warc.

Module queue.
Record Item : Type := { URL : url.URL; Hop : Z; Hash : string }.
End queue.

(** ** The crawl and the world around it *)

(** The fields of [Crawl] that the modelled functions read. The writer
    channel and the rate counter are shared and mutable: see [World]. *)
Record Crawl : Type :=
  { JobPath : string;
    MaxHops : Z;
    Headless : bool }.

(** What a call did to the shared objects, in program order. *)
Inductive event : Type :=
| Send (b : warc.RecordBatch)     (* c.WARCWriter <- batch, once it went through *)
| RecvDone (ch : nat)             (* <-batch.Done *)
| Incr (n : Z)                    (* c.URLsPerSecond.Incr(n) *)
| Extract (html : string).        (* extractOutlinks(html) *)

Record World : Type :=
  { fs : gmap string string;      (* path of a file -> its bytes *)
    uuids : nat;                  (* UUIDs drawn so far *)
    chans : nat;                  (* channels made so far *)
    trace : list event }.

(** The answers of everything that is called but not defined in the two
    modelled files. [extractOutlinks] and [needBrowser] belong to the package
    but live in other files; the rest is library code. *)
Record Platform : Type :=
  { URL_String : url.URL → string;                     (* u.String() on a url.URL *)
    QueryEscape : string → string;                     (* url.QueryEscape *)
    filepath_Join : list string → string;              (* filepath.Join *)
    uuid_NewV4 : nat → string;                         (* n-th uuid.NewV4().String() *)
    OpenFile_err : string → option error;              (* does os.OpenFile fail *)
    Response_Write : http.Response → string * option error;
                                                       (* bytes resp.Write emits, and its error *)
    DumpResponse : http.Response → result string;      (* httputil.DumpResponse(resp, true) *)
    DumpRequestOut : http.Request → result string;     (* httputil.DumpRequestOut(req, true) *)
    http_Get : string → result http.Response;          (* http.Get *)
    network_Enable : option error;                     (* network.Enable() action *)
    Navigate : string → option error;                  (* chromedp.Navigate(url) action *)
    GetDocument : result nat;                          (* dom.GetDocument(): the root NodeID *)
    GetOuterHTML : nat → result string;                (* dom.GetOuterHTML().WithNodeID(id) *)
    extractOutlinks : string → list url.URL;
    needBrowser : queue.Item → bool }.

(** ** State monad over the world *)

Definition M (A : Type) : Type := World → A * World.

#[global] Instance M_ret : MRet M := λ A a w, (a, w).
#[global] Instance M_bind : MBind M :=
  λ A B f m w, let '(a, w') := m w in f a w'.

Definition emit (e : event) : M unit :=
  λ w, (tt, {| fs := fs w; uuids := uuids w; chans := chans w;
               trace := trace w ++ [e] |}).

Definition with_fs (f : gmap string string → gmap string string) : M unit :=
  λ w, (tt, {| fs := f (fs w); uuids := uuids w; chans := chans w;
               trace := trace w |}).

(** [make(chan bool)] *)
Definition make_chan : M nat :=
  λ w, (chans w, {| fs := fs w; uuids := uuids w; chans := S (chans w);
                    trace := trace w |}).

Section Crawl.
Context (P : Platform).

(** [uuid.NewV4()], already rendered by [String()]. *)
Definition NewV4 : M string :=
  λ w, (uuid_NewV4 P (uuids w),
        {| fs := fs w; uuids := S (uuids w); chans := chans w;
           trace := trace w |}).

(** [os.OpenFile(path, O_APPEND|O_CREATE|O_WRONLY, 0644)]: on success the
    file exists afterwards, empty if it was not there before. *)
Definition os_OpenFile (path : string) : M (option error) :=
  match OpenFile_err P path with
  | Some e => mret (Some e)
  | None =>
      _ ← with_fs (λ m, match m !! path with
                        | Some _ => m
                        | None => <[path := ""]> m
                        end);
      mret None
  end.

(** [resp.Write(file)] on a file opened for appending at [path]: the bytes
    emitted before [Write] returns reach the file, error or not. *)
Definition resp_Write (resp : http.Response) (path : string) : M (option error) :=
  let '(out, err) := Response_Write P resp in
  _ ← with_fs (λ m, <[path := default "" (m !! path) +:+ out]> m);
  mret err.

(** [os.Remove(path)]: the file is gone afterwards. Its error is dropped by
    every caller, and a removal that fails on an existing file is not
    modelled. *)
Definition os_Remove (path : string) : M unit :=
  with_fs (delete path).

(** The file name [dumpResponseToFile] picks in world [w]. *)
Definition spool_path (c : Crawl) (w : World) : string :=
  filepath_Join P [JobPath c; "temp"; uuid_NewV4 P (uuids w) +:+ ".temp"].

Definition dumpResponseToFile (c : Crawl) (resp : http.Response)
  : M (string * option error) :=
  UUID ← NewV4;
  let filePath := filepath_Join P [JobPath c; "temp"; UUID +:+ ".temp"] in
  err ← os_OpenFile filePath;
  match err with
  | Some e => mret ("", Some e)
  | None =>
      err ← resp_Write resp filePath;
      match err with
      | Some e =>
          _ ← os_Remove filePath;
          mret ("", Some e)
      | None => mret (filePath, None)
      end
  end.

Definition writeWARC (c : Crawl) (resp : http.Response)
  : M (string * option error) :=
  let batch := warc.NewRecordBatch in
  let responsePath := "" in
  (* Initialize the response record *)
  let responseRecord := warc.NewRecord in
  let responseRecord := warc.Header_Set "WARC-Type" "response" responseRecord in
  let responseRecord :=
    warc.Header_Set "WARC-Target-URI"
      (QueryEscape P (URL_String P (http.URL (http.Request_of resp)))) responseRecord in
  let responseRecord :=
    warc.Header_Set "Content-Type" "application/http; msgtype=response" responseRecord in
  (* the rest of the function, once the response record is filled *)
  let finish (responsePath : string) (responseRecord : warc.Record_)
    : M (string * option error) :=
    match DumpRequestOut P (http.Request_of resp) with
    | Err e =>
        _ ← os_Remove responsePath;
        mret (responsePath, Some e)
    | Ok requestDump =>
        let requestRecord := warc.NewRecord in
        let requestRecord := warc.Header_Set "WARC-Type" "request" requestRecord in
        let requestRecord :=
          warc.Header_Set "WARC-Target-URI"
            (QueryEscape P (URL_String P (http.URL (http.Request_of resp)))) requestRecord in
        let requestRecord :=
          warc.Header_Set "Host" (url.Host (http.URL (http.Request_of resp))) requestRecord in
        let requestRecord :=
          warc.Header_Set "Content-Type" "application/http; msgtype=request" requestRecord in
        let requestRecord := warc.set_Content requestDump requestRecord in
        let batch :=
          warc.set_Records (warc.Records batch ++ [responseRecord; requestRecord]) batch in
        if decide (responsePath ≠ "") then
          ch ← make_chan;
          let batch := warc.set_Done ch batch in
          _ ← emit (Send batch);
          _ ← emit (RecvDone ch);
          mret (responsePath, None)
        else
          _ ← emit (Send batch);
          mret (responsePath, None)
    end in
  if (http.ContentLength resp =? -1) || (http.ContentLength resp >? 2097152) then
    '(responsePath, err) ← dumpResponseToFile c resp;
    match err with
    | Some e => mret (responsePath, Some e)
    | None =>
        let responseRecord := warc.set_PayloadPath responsePath responseRecord in
        finish responsePath responseRecord
    end
  else
    match DumpResponse P resp with
    | Err e => mret (responsePath, Some e)
    | Ok responseDump =>
        let responseRecord := warc.set_Content responseDump responseRecord in
        finish responsePath responseRecord
    end.

(** The two goroutine bodies of [writeWARCFromConnection], each up to the
    point where it hands its record over: [io.Copy] drains the pipe into a
    buffer, and an error of the pipe makes the goroutine panic ([Err]). *)
Definition connRequestRecord (URL : url.URL) (req : io.Reader) : result warc.Record_ :=
  let requestRecord := warc.NewRecord in
  let requestRecord := warc.Header_Set "WARC-Type" "request" requestRecord in
  let requestRecord := warc.Header_Set "WARC-Target-URI" (URL_String P URL) requestRecord in
  let requestRecord := warc.Header_Set "Host" (url.Host URL) requestRecord in
  let requestRecord :=
    warc.Header_Set "Content-Type" "application/http; msgtype=request" requestRecord in
  match io.fault req with
  | Some e => Err e
  | None => Ok (warc.set_Content (io.data req) requestRecord)
  end.

Definition connResponseRecord (URL : url.URL) (resp : io.Reader) : result warc.Record_ :=
  let responseRecord := warc.NewRecord in
  let responseRecord := warc.Header_Set "WARC-Type" "response" responseRecord in
  let responseRecord := warc.Header_Set "WARC-Target-URI" (URL_String P URL) responseRecord in
  let responseRecord := warc.Header_Set "Host" (url.Host URL) responseRecord in
  let responseRecord :=
    warc.Header_Set "Content-Type" "application/http; msgtype=response" responseRecord in
  match io.fault resp with
  | Some e => Err e
  | None => Ok (warc.set_Content (io.data resp) responseRecord)
  end.

(** A call of [extractOutlinks], recorded in the trace. *)
Definition call_extractOutlinks (html : string) : M (list url.URL) :=
  _ ← emit (Extract html);
  mret (extractOutlinks P html).

(** The [chromedp.ActionFunc] closure of [captureWithBrowser]. It writes the
    captured variable [outlinks]; its [err] is the one declared by [:=]
    inside the branch, and outside the branch the still-nil named result. *)
Definition extract_action (c : Crawl) (outlinks : list url.URL)
  : M (list url.URL * option error) :=
  if MaxHops c >? 0 then
    match GetDocument P with
    | Err e => mret (outlinks, Some e)
    | Ok node =>
        match GetOuterHTML P node with
        | Err e => mret (outlinks, Some e)
        | Ok str =>
            outlinks ← call_extractOutlinks str;
            mret (outlinks, None)
        end
    end
  else mret (outlinks, None).

(** [chromedp.Run] performs its actions in order and stops at the first
    error. The [ListenTarget] callback only logs and is left out. *)
Definition captureWithBrowser (c : Crawl) (item : queue.Item)
  : M (list url.URL * option error) :=
  let outlinks := [] in
  '(outlinks, err) ←
    match network_Enable P with
    | Some e => mret (outlinks, Some e)
    | None =>
        match Navigate P (URL_String P (queue.URL item)) with
        | Some e => mret (outlinks, Some e)
        | None => extract_action c outlinks
        end
    end;
  match err with
  | Some e => mret (outlinks, Some e)
  | None => mret (outlinks, None)
  end.

Definition captureWithGET (c : Crawl) (item : queue.Item)
  : M (list url.URL * option error) :=
  let outlinks := [] in
  match http_Get P (URL_String P (queue.URL item)) with
  | Err e => mret (outlinks, Some e)
  | Ok resp =>
      (* the log line reads the rate counter and changes nothing *)
      match io.ReadAll (http.Body resp) with
      | Err e => mret (outlinks, Some e)
      | Ok body =>
          outlinks ← call_extractOutlinks body;
          mret (outlinks, None)
      end
  end.

(** [c.URLsPerSecond.Incr(n)] *)
Definition URLsPerSecond_Incr (n : Z) : M unit := emit (Incr n).

Definition Capture (c : Crawl) (item : queue.Item)
  : M (list url.URL * option error) :=
  '(outlinks, err) ←
    (if needBrowser P item && Headless c
     then captureWithBrowser c item
     else captureWithGET c item);
  _ ← URLsPerSecond_Incr 1;
  match err with
  | Some e => mret ([], Some e)
  | None => mret (outlinks, None)
  end.

End Crawl.

(** ** Reading a trace *)

(** The batches put on the writer channel, oldest first. *)
Definition sent (t : list event) : list warc.RecordBatch :=
  omap (λ e, match e with Send b => Some b | _ => None end) t.

(** The amounts the rate counter was incremented by, oldest first. *)
Definition incrs (t : list event) : list Z :=
  omap (λ e, match e with Incr n => Some n | _ => None end) t.

(** The documents [extractOutlinks] was called on, oldest first. *)
Definition extracts (t : list event) : list string :=
  omap (λ e, match e with Extract h => Some h | _ => None end) t.

(** ** A concrete platform

    Stand-ins that behave like the libraries on the inputs used below. *)
Module Demo.
Definition crlf : string := String (ascii_of_nat 13) (String (ascii_of_nat 10) "").

Definition url_string (u : url.URL) : string :=
  url.Scheme u +:+ "://" +:+ url.Host u +:+ url.Path u
    +:+ (if decide (url.RawQuery u = "") then "" else "?" +:+ url.RawQuery u).

(** [filepath.Join] on elements that need no cleaning. *)
Definition join (elems : list string) : string :=
  String.concat "/" (filter (λ e, e ≠ "") elems).

Definition new_v4 (n : nat) : string :=
  "6ba7b810-9dad-41d1-80b4-00c04fd430c" +:+ String (ascii_of_nat (48 + n mod 10)) "".

Definition serialize (resp : http.Response) : string :=
  "HTTP/1.1 200 OK" +:+ crlf +:+ crlf +:+ io.data (http.Body resp).

Definition dump_request (req : http.Request) : string :=
  http.Method req +:+ " " +:+ url.Path (http.URL req) +:+ " HTTP/1.1" +:+ crlf
    +:+ "Host: " +:+ url.Host (http.URL req) +:+ crlf +:+ crlf.

(** Every anchor-free document: no outlinks; otherwise one fixed link. *)
Definition link : url.URL :=
  {| url.Scheme := "http"; url.Host := "example.org"; url.Path := "/next";
     url.RawQuery := "" |}.

Definition extract_outlinks (html : string) : list url.URL :=
  if decide (html = "") then [] else [link].

Definition page : url.URL :=
  {| url.Scheme := "http"; url.Host := "example.com"; url.Path := "/index.html";
     url.RawQuery := "" |}.

Definition get : http.Request := {| http.Method := "GET"; http.URL := page |}.

(** A response of [n] declared bytes whose body reads without error. *)
Definition response (n : Z) (body : string) : http.Response :=
  {| http.StatusCode := 200; http.ContentLength := n;
     http.Body := {| io.data := body; io.fault := None |};
     http.Request_of := get |}.

(** A body of exactly 2,097,152 bytes: one byte doubled 21 times. *)
Definition body_2MiB : string := N.iter 21 (λ s, s +:+ s) "a".

Definition response_2MiB : http.Response := response 2097152 body_2MiB.

Definition platform : Platform :=
  {| URL_String := url_string;
     QueryEscape := url.QueryEscape;
     filepath_Join := join;
     uuid_NewV4 := new_v4;
     OpenFile_err := λ _, None;
     Response_Write := λ resp, (serialize resp, io.fault (http.Body resp));
     DumpResponse := λ resp,
       match io.fault (http.Body resp) with
       | None => Ok (serialize resp)
       | Some e => Err e
       end;
     DumpRequestOut := λ req, Ok (dump_request req);
     http_Get := λ _, Ok (response 14 "<a href=/next>");
     network_Enable := None;
     Navigate := λ _, None;
     GetDocument := Ok 1%nat;
     GetOuterHTML := λ _, Ok "<a href=/next>";
     extractOutlinks := extract_outlinks;
     needBrowser := λ _, false |}.

(** The same platform, except that dumping the outgoing request fails. *)
Definition platform_bad_request : Platform :=
  {| URL_String := url_string;
     QueryEscape := url.QueryEscape;
     filepath_Join := join;
     uuid_NewV4 := new_v4;
     OpenFile_err := λ _, None;
     Response_Write := λ resp, (serialize resp, io.fault (http.Body resp));
     DumpResponse := DumpResponse platform;
     DumpRequestOut := λ _, Err "http: nil Request.URL";
     http_Get := http_Get platform;
     network_Enable := None;
     Navigate := λ _, None;
     GetDocument := Ok 1%nat;
     GetOuterHTML := λ _, Ok "<a href=/next>";
     extractOutlinks := extract_outlinks;
     needBrowser := needBrowser platform |}.

Definition crawl (hops : Z) : Crawl :=
  {| JobPath := "jobs/demo"; MaxHops := hops; Headless := true |}.

Definition item : queue.Item :=
  {| queue.URL := page; queue.Hop := 0; queue.Hash := "da39a3ee" |}.

Definition world : World :=
  {| fs := ∅; uuids := 0; chans := 0; trace := [] |}.
End Demo.

(** ** The size policy as the specification has it *)

(** Below 2 MiB in memory; from 2 MiB on, or with unknown length, on disk.
    Compared with what [writeWARC] does in the section on memory or disk. *)
Definition buffers_below_2MiB
  (P : Platform) (c : Crawl) (resp : http.Response) (w : World) : Prop :=
  ∀ path w', writeWARC P c resp w = ((path, None), w') →
  ∃ b responseRecord,
    sent (trace w') = sent (trace w) ++ [b]
    ∧ warc.Records b !! 0%nat = Some responseRecord
    ∧ (is_Some (warc.Content responseRecord)
       ↔ http.ContentLength resp ≠ -1 ∧ http.ContentLength resp < 2097152)
    ∧ (http.ContentLength resp = -1 ∨ http.ContentLength resp >= 2097152 →
       warc.Content responseRecord = None
       ∧ warc.PayloadPath responseRecord = path
       ∧ is_Some (fs w' !! path)).

(** ** Platforms and inputs that fail *)
Module Faulty.
(** A response of unknown length whose body breaks off after three bytes. *)
Definition response_cut : http.Response :=
  {| http.StatusCode := 200; http.ContentLength := -1;
     http.Body := {| io.data := "hel"; io.fault := Some "unexpected EOF" |};
     http.Request_of := Demo.get |}.

(** [Demo.platform] with the network down: neither the GET nor the
    navigation of the browser gets through. *)
Definition platform_offline : Platform :=
  {| URL_String := Demo.url_string;
     QueryEscape := url.QueryEscape;
     filepath_Join := Demo.join;
     uuid_NewV4 := Demo.new_v4;
     OpenFile_err := λ _, None;
     Response_Write := Response_Write Demo.platform;
     DumpResponse := DumpResponse Demo.platform;
     DumpRequestOut := DumpRequestOut Demo.platform;
     http_Get := λ _, Err "dial tcp: connection refused";
     network_Enable := None;
     Navigate := λ _, Some "page load error net::ERR_CONNECTION_REFUSED";
     GetDocument := Ok 1%nat;
     GetOuterHTML := λ _, Ok "<a href=/next>";
     extractOutlinks := Demo.extract_outlinks;
     needBrowser := λ _, true |}.

(** A world in which the name of the next spool file is already taken. *)
Definition world_taken : World :=
  {| fs := {[ "jobs/demo/temp/6ba7b810-9dad-41d1-80b4-00c04fd430c0.temp" := "old" ]};
     uuids := 0; chans := 0; trace := [] |}.
End Faulty.

(** ** [writeWARCFromConnection]: the function and its two goroutines

    The function spawns two goroutines and then runs on; the three threads
    meet at the unbuffered channel [recordChan] and at the
    [sizedwaitgroup.SizedWaitGroup] [swg]. A state holds where each thread
    stands; [step] moves one thread by one blocking-free stretch of code, or
    is [None] when that thread is blocked or has finished. A schedule is any
    list of threads. *)
Module conn.
(** [sizedwaitgroup.SizedWaitGroup] of github.com/remeh/sizedwaitgroup: a
    buffered channel [current] of capacity [Size], of which only the number
    of queued tokens matters, and the counter of a [sync.WaitGroup]. *)
Record SizedWaitGroup : Type := { Size : nat; current : nat; wg : Z }.

(** [sizedwaitgroup.New(limit)] for a positive limit. *)
Definition New (limit : nat) : SizedWaitGroup :=
  {| Size := limit; current := 0; wg := 0 |}.

(** [swg.Add()]: queue a token, blocking ([None]) while the channel is full,
    then count one up. [writeWARCFromConnection] never calls it. *)
Definition Add (s : SizedWaitGroup) : option SizedWaitGroup :=
  if (current s <? Size s)%nat
  then Some {| Size := Size s; current := S (current s); wg := wg s + 1 |}
  else None.

Inductive thread : Type := Main | RequestTask | ResponseTask.

(** Where a goroutine stands. *)
Inductive task : Type :=
| Body (r : result warc.Record_)  (* about to fill its record and drain its pipe,
                                     which gives r *)
| Sending (r : warc.Record_)      (* at recordChan <- record *)
| Releasing (p : option error)    (* in the deferred swg.Done(), at <-s.current;
                                     p is the panic under way, if any *)
| Counting (p : option error)     (* in the deferred swg.Done(), at s.wg.Done() *)
| Exited.

(** Where the function itself stands. *)
Inductive main_pc : Type :=
| AtWait                          (* at swg.Wait() *)
| AtRecv (i : Z)                  (* in the loop, at its test with index i *)
| AtSubmit                        (* at c.WARCWriter <- batch, which the writer
                                     is taken to receive *)
| AtDeferred                      (* returning: the deferred c.WaitGroup.Done() *)
| Returned.

Record state : Type :=
  { main : main_pc;
    request : task;
    response : task;
    swg : SizedWaitGroup;
    batch : warc.RecordBatch;
    WARCWriter : list warc.RecordBatch;   (* batches put on c.WARCWriter *)
    WaitGroup_Done : nat;                 (* calls of c.WaitGroup.Done() *)
    panicked : option error }.            (* a panic that left its goroutine *)

Definition task_of (t : thread) (s : state) : option task :=
  match t with
  | Main => None
  | RequestTask => Some (request s)
  | ResponseTask => Some (response s)
  end.

Definition set_task (t : thread) (k : task) (s : state) : state :=
  {| main := main s;
     request := match t with RequestTask => k | _ => request s end;
     response := match t with ResponseTask => k | _ => response s end;
     swg := swg s; batch := batch s; WARCWriter := WARCWriter s;
     WaitGroup_Done := WaitGroup_Done s; panicked := panicked s |}.

Definition set_main (m : main_pc) (s : state) : state :=
  {| main := m; request := request s; response := response s; swg := swg s;
     batch := batch s; WARCWriter := WARCWriter s;
     WaitGroup_Done := WaitGroup_Done s; panicked := panicked s |}.

Definition set_swg (g : SizedWaitGroup) (s : state) : state :=
  {| main := main s; request := request s; response := response s; swg := g;
     batch := batch s; WARCWriter := WARCWriter s;
     WaitGroup_Done := WaitGroup_Done s; panicked := panicked s |}.

Definition set_panicked (e : error) (s : state) : state :=
  {| main := main s; request := request s; response := response s; swg := swg s;
     batch := batch s; WARCWriter := WARCWriter s;
     WaitGroup_Done := WaitGroup_Done s; panicked := Some e |}.

(** [record := <-recordChan; batch.Records = append(batch.Records, record)]
    and the [i++] of the loop, on the side of the function. *)
Definition receive (r : warc.Record_) (i : Z) (s : state) : state :=
  {| main := AtRecv (i + 1); request := request s; response := response s;
     swg := swg s;
     batch := warc.set_Records (warc.Records (batch s) ++ [r]) (batch s);
     WARCWriter := WARCWriter s;
     WaitGroup_Done := WaitGroup_Done s; panicked := panicked s |}.

Definition step_main (s : state) : option state :=
  match main s with
  | AtWait =>
      (* sync.WaitGroup.Wait returns once the counter is zero *)
      if wg (swg s) =? 0 then Some (set_main (AtRecv 0) s) else None
  | AtRecv i =>
      (* inside the loop the function blocks on the receive; a sender's step
         completes it *)
      if i <? 2 then None else Some (set_main AtSubmit s)
  | AtSubmit =>
      Some {| main := AtDeferred; request := request s; response := response s;
              swg := swg s; batch := batch s;
              WARCWriter := WARCWriter s ++ [batch s];
              WaitGroup_Done := WaitGroup_Done s; panicked := panicked s |}
  | AtDeferred =>
      Some {| main := Returned; request := request s; response := response s;
              swg := swg s; batch := batch s; WARCWriter := WARCWriter s;
              WaitGroup_Done := S (WaitGroup_Done s); panicked := panicked s |}
  | Returned => None
  end.

Definition step_task (t : thread) (k : task) (s : state) : option state :=
  match k with
  | Body (Ok r) => Some (set_task t (Sending r) s)
  | Body (Err e) => Some (set_task t (Releasing (Some e)) s)   (* panic(err) *)
  | Sending r =>
      (* the channel is unbuffered: the send goes through only while the
         function is at its receive *)
      match main s with
      | AtRecv i =>
          if i <? 2 then Some (set_task t (Releasing None) (receive r i s)) else None
      | _ => None
      end
  | Releasing p =>
      match current (swg s) with
      | O => None                                  (* nothing to take: blocked *)
      | S n =>
          Some (set_task t (Counting p)
                  (set_swg {| Size := Size (swg s); current := n; wg := wg (swg s) |} s))
      end
  | Counting p =>
      if wg (swg s) - 1 <? 0
      then Some (set_panicked "sync: negative WaitGroup counter" s)
      else
        let s' := set_swg {| Size := Size (swg s); current := current (swg s);
                             wg := wg (swg s) - 1 |} s in
        match p with
        | Some e => Some (set_panicked e s')
        | None => Some (set_task t Exited s')
        end
  | Exited => None
  end.

(** One step of thread [t]; a panic that left its goroutine stops them all. *)
Definition step (t : thread) (s : state) : option state :=
  match panicked s with
  | Some _ => None
  | None =>
      match task_of t s with
      | None => step_main s
      | Some k => step_task t k s
      end
  end.

(** Running a schedule; [None] when it asks a thread to move that cannot. *)
Fixpoint exec (sched : list thread) (s : state) : option state :=
  match sched with
  | [] => Some s
  | t :: sched' =>
      match step t s with
      | Some s' => exec sched' s'
      | None => None
      end
  end.

Definition next (s : state) : list state :=
  omap (λ t, step t s) [Main; RequestTask; ResponseTask].

(** The ends of all runs from [s]: [Some] of a state in which no thread can
    move, or [None] for a run still going after [fuel] steps. *)
Fixpoint explore (fuel : nat) (s : state) : list (option state) :=
  match next s with
  | [] => [Some s]
  | succs =>
      match fuel with
      | O => [None]
      | S fuel' => succs ≫= explore fuel'
      end
  end.

Section start.
Context (P : Platform) (URL : url.URL) (req resp : io.Reader).

(** [writeWARCFromConnection] once both goroutines are spawned, with the
    wait group as [sizedwaitgroup.New(2)] made it. The first goroutine may
    already run while the second is being spawned; the two meet nothing but
    the function's receive, which comes later, so no run is lost. *)
Definition start : state :=
  {| main := AtWait;
     request := Body (connRequestRecord P URL req);
     response := Body (connResponseRecord P URL resp);
     swg := New 2;
     batch := warc.NewRecordBatch;
     WARCWriter := [];
     WaitGroup_Done := 0;
     panicked := None |}.

(** The same with [swg.Add()] called once for each goroutine, which the
    source does not do. *)
Definition start_counted : state :=
  set_swg (default (New 2) (Add (New 2) ≫= Add)) start.
End start.
End conn.

(** ** Names of spool files *)

(** The file name [dumpResponseToFile] gives to the [n]-th UUID drawn. *)
Definition spool_name (P : Platform) (c : Crawl) (n : nat) : string :=
  filepath_Join P [JobPath c; "temp"; uuid_NewV4 P n +:+ ".temp"].

(** No file bears the name of a UUID that is still to be drawn. *)
Definition undrawn_free (P : Platform) (c : Crawl) (w : World) : Prop :=
  ∀ n, (uuids w ≤ n)%nat → fs w !! spool_name P c n = None.

(** ** A platform whose UUIDs never repeat, and items that need a browser *)
Module Unique.
Definition new_v4 (n : nat) : string := "6ba7b810-9dad-41d1-80b4-" +:+ pretty n.

(** [Demo.platform] with UUIDs that differ from draw to draw. *)
Definition platform : Platform :=
  {| URL_String := Demo.url_string;
     QueryEscape := url.QueryEscape;
     filepath_Join := Demo.join;
     uuid_NewV4 := new_v4;
     OpenFile_err := OpenFile_err Demo.platform;
     Response_Write := Response_Write Demo.platform;
     DumpResponse := DumpResponse Demo.platform;
     DumpRequestOut := DumpRequestOut Demo.platform;
     http_Get := http_Get Demo.platform;
     network_Enable := None;
     Navigate := λ _, None;
     GetDocument := Ok 1%nat;
     GetOuterHTML := λ _, Ok "<a href=/next>";
     extractOutlinks := Demo.extract_outlinks;
     needBrowser := λ _, false |}.

(** [Demo.platform] where every item needs a browser. *)
Definition platform_browser_needed : Platform :=
  {| URL_String := Demo.url_string;
     QueryEscape := url.QueryEscape;
     filepath_Join := Demo.join;
     uuid_NewV4 := Demo.new_v4;
     OpenFile_err := OpenFile_err Demo.platform;
     Response_Write := Response_Write Demo.platform;
     DumpResponse := DumpResponse Demo.platform;
     DumpRequestOut := DumpRequestOut Demo.platform;
     http_Get := http_Get Demo.platform;
     network_Enable := None;
     Navigate := λ _, None;
     GetDocument := Ok 1%nat;
     GetOuterHTML := λ _, Ok "<a href=/next>";
     extractOutlinks := Demo.extract_outlinks;
     needBrowser := λ _, true |}.
End Unique.

(** ** Sample runs *)

Example QueryEscape_page :
  url.QueryEscape (Demo.url_string Demo.page) = "http%3A%2F%2Fexample.com%2Findex.html".
Proof. reflexivity. Qed.

Example QueryEscape_space : url.QueryEscape "a b&c~" = "a+b%26c~".
Proof. reflexivity. Qed.

Example spool_path_demo :
  spool_path Demo.platform (Demo.crawl 0) Demo.world
  = "jobs/demo/temp/6ba7b810-9dad-41d1-80b4-00c04fd430c0.temp".
Proof. reflexivity. Qed.

Lemma length_append (s t : string) :
  String.length (s +:+ t) = (String.length s + String.length t)%nat.
Proof. induction s as [|a s IH]; simpl; [reflexivity | by rewrite IH]. Qed.

Lemma length_doubled (n : N) (s : string) :
  Z.of_nat (String.length (N.iter n (λ s, s +:+ s) s))
  = 2 ^ Z.of_N n * Z.of_nat (String.length s).
Proof.
  induction n as [|n IH] using N.peano_ind; [simpl; lia|].
  rewrite N.iter_succ, length_append, N2Z.inj_succ, Z.pow_succ_r by lia. lia.
Qed.

(** The body of [Demo.response_2MiB] is as long as its declared length. *)
Example response_2MiB_length :
  Z.of_nat (String.length (io.data (http.Body Demo.response_2MiB)))
  = http.ContentLength Demo.response_2MiB.
Proof.
  change (Z.of_nat (String.length Demo.body_2MiB) = 2097152).
  unfold Demo.body_2MiB. rewrite length_doubled. reflexivity.
Qed.

(** ** Proof tools *)

Ltac run_M :=
  unfold mbind, M_bind, mret, M_ret, URLsPerSecond_Incr, call_extractOutlinks,
    emit, with_fs, make_chan, os_Remove, os_OpenFile, resp_Write, NewV4 in *;
  simpl in *.

Lemma sent_app (t1 t2 : list event) : sent (t1 ++ t2) = sent t1 ++ sent t2.
Proof. apply omap_app. Qed.

Lemma incrs_app (t1 t2 : list event) : incrs (t1 ++ t2) = incrs t1 ++ incrs t2.
Proof. apply omap_app. Qed.

Lemma extracts_app (t1 t2 : list event) :
  extracts (t1 ++ t2) = extracts t1 ++ extracts t2.
Proof. apply omap_app. Qed.

(** ** The spool file of [dumpResponseToFile] *)

Section dumpResponseToFile_facts.
Context (P : Platform) (c : Crawl) (resp : http.Response) (w : World).

(** [dumpResponseToFile] touches the file system, draws one UUID and
    nothing else. *)
Lemma dumpResponseToFile_frame :
  let w' := (dumpResponseToFile P c resp w).2 in
  trace w' = trace w ∧ chans w' = chans w ∧ uuids w' = S (uuids w)
  ∧ ∀ q, q ≠ spool_path P c w → fs w' !! q = fs w !! q.
Proof.
  unfold dumpResponseToFile, spool_path. run_M.
  destruct (OpenFile_err P _) as [e|]; simpl; [done|].
  destruct (Response_Write P resp) as [out [e|]]; simpl;
    (repeat split; [done..|]); intros q Hq;
    destruct (fs w !! _) eqn:Hold; simpl;
    rewrite ?lookup_delete_ne, ?lookup_insert_ne by done; done.
Qed.

(** The returned path is the spool path exactly when there is no error. *)
Lemma dumpResponseToFile_path :
  let r := (dumpResponseToFile P c resp w).1 in
  match r.2 with
  | None => r.1 = spool_path P c w
  | Some _ => r.1 = ""
  end.
Proof.
  unfold dumpResponseToFile, spool_path. run_M.
  destruct (OpenFile_err P _) as [e|]; simpl; [done|].
  destruct (Response_Write P resp) as [out [e|]]; simpl; done.
Qed.

(** After a call without error the file is there; it holds what was at
    that name before, followed by everything [resp.Write] emitted. *)
Lemma dumpResponseToFile_ok (path : string) (w1 : World) :
  dumpResponseToFile P c resp w = ((path, None), w1) →
  path = spool_path P c w
  ∧ OpenFile_err P path = None
  ∧ (Response_Write P resp).2 = None
  ∧ fs w1 !! path
    = Some (default "" (fs w !! path) +:+ (Response_Write P resp).1).
Proof.
  unfold dumpResponseToFile, spool_path. run_M.
  destruct (OpenFile_err P _) as [e|] eqn:Hopen; simpl; [done|].
  destruct (Response_Write P resp) as [out [e|]]; simpl; [done|].
  intros [= <- <-]. simpl. repeat split; [done..|].
  rewrite lookup_insert_eq.
  destruct (fs w !! _) eqn:Hold; simpl; [by rewrite Hold|].
  by rewrite lookup_insert_eq.
Qed.
End dumpResponseToFile_facts.

(** What [dumpResponseToFile] does when the name it picks is free: without
    error the file holds what [resp.Write] emitted; with an error no file is
    left at that name. No other file is touched. *)
Lemma dumpResponseToFile_file_or_error
  (P : Platform) (c : Crawl) (resp : http.Response) (w : World) :
  let p := filepath_Join P [JobPath c; "temp"; uuid_NewV4 P (uuids w) +:+ ".temp"] in
  fs w !! p = None →
  let '((path, err), w') := dumpResponseToFile P c resp w in
  match err with
  | None =>
      path = p ∧ OpenFile_err P p = None
      ∧ (Response_Write P resp).2 = None
      ∧ fs w' !! p = Some (Response_Write P resp).1
  | Some e =>
      path = "" ∧ fs w' !! p = None
      ∧ (OpenFile_err P p = Some e
         ∨ (OpenFile_err P p = None ∧ (Response_Write P resp).2 = Some e))
  end
  ∧ ∀ q, q ≠ p → fs w' !! q = fs w !! q.
Proof.
  intros p Hfresh.
  pose proof (dumpResponseToFile_frame P c resp w) as (_ & _ & _ & Hframe).
  fold p in Hframe. unfold spool_path in Hframe. fold p in Hframe.
  revert Hframe. unfold dumpResponseToFile. run_M. fold p.
  destruct (OpenFile_err P p) as [e|] eqn:Hopen; simpl.
  { intros Hframe. split; [|done]. repeat split; auto. }
  rewrite Hfresh.
  destruct (Response_Write P resp) as [out [e|]] eqn:Hwrite; simpl; intros Hframe.
  - split; [|done]. repeat split; [apply lookup_delete_eq | auto].
  - split; [|done]. repeat split. by rewrite !lookup_insert_eq.
Qed.


(** ** The batch [writeWARC] submits *)

(** Splits a successful run [H : writeWARC P c resp w = (path, None, w')] into
    its two shapes: spooled to disk, or dumped in memory. *)
Ltac writeWARC_ok H :=
  let Hlen := fresh "Hlen" in
  let Hdump := fresh "Hdump" in
  let Hreq := fresh "Hreq" in
  unfold writeWARC in H; run_M;
  destruct ((http.ContentLength _ =? -1) || (http.ContentLength _ >? 2097152)) eqn:Hlen;
  [ destruct (dumpResponseToFile _ _ _ _) as [[? [?|]] ?] eqn:Hdump; simpl in H;
    [discriminate H|]
  | destruct (DumpResponse _ _) eqn:Hdump; simpl in H; [|discriminate H] ];
  (destruct (DumpRequestOut _ _) eqn:Hreq; simpl in H; [|discriminate H]);
  try (destruct (decide (_ ≠ "")); simpl in H);
  injection H as <- <-.

(** C8. Every successful [writeWARC] puts exactly one batch on the writer
    channel; the batch holds exactly two records, the response record first
    and the request record second. *)
Theorem writeWARC_response_then_request
  (P : Platform) (c : Crawl) (resp : http.Response) (w w' : World) (path : string) :
  writeWARC P c resp w = ((path, None), w') →
  ∃ b responseRecord requestRecord,
    sent (trace w') = sent (trace w) ++ [b]
    ∧ warc.Records b = [responseRecord; requestRecord]
    ∧ warc.Header responseRecord !! "WARC-Type" = Some "response"
    ∧ warc.Header requestRecord !! "WARC-Type" = Some "request".
Proof.
  intros H. writeWARC_ok H.
  all: do 3 eexists; simpl; rewrite ?sent_app; simpl; rewrite ?app_nil_r.
  all: try (pose proof (dumpResponseToFile_frame P c resp w) as (Ht & _);
            rewrite Hdump in Ht; simpl in Ht; rewrite Ht).
  all: split; [reflexivity|]; split; [reflexivity|]; split; reflexivity.
Qed.

(** What a successful [writeWARC] did, by the branch it took. *)
Lemma writeWARC_success_inv
  (P : Platform) (c : Crawl) (resp : http.Response) (w w' : World) (path : string) :
  writeWARC P c resp w = ((path, None), w') →
  ∃ b responseRecord requestRecord requestDump,
    warc.Records b = [responseRecord; requestRecord]
    ∧ DumpRequestOut P (http.Request_of resp) = Ok requestDump
    ∧ warc.Content requestRecord = Some requestDump
    ∧ warc.PayloadPath requestRecord = ""
    ∧ (((http.ContentLength resp = -1 ∨ http.ContentLength resp > 2097152)
        ∧ ∃ w1, dumpResponseToFile P c resp w = ((path, None), w1)
          ∧ warc.Content responseRecord = None
          ∧ warc.PayloadPath responseRecord = path
          ∧ fs w' = fs w1
          ∧ ((path ≠ "" ∧ warc.Done b = Some (chans w)
              ∧ trace w' = trace w ++ [Send b; RecvDone (chans w)])
             ∨ (path = "" ∧ warc.Done b = None
                ∧ trace w' = trace w ++ [Send b])))
       ∨ ((http.ContentLength resp ≠ -1 ∧ http.ContentLength resp <= 2097152)
          ∧ ∃ responseDump, DumpResponse P resp = Ok responseDump
            ∧ warc.Content responseRecord = Some responseDump
            ∧ warc.PayloadPath responseRecord = ""
            ∧ path = "" ∧ warc.Done b = None
            ∧ fs w' = fs w
            ∧ trace w' = trace w ++ [Send b])).
Proof.
  intros H. writeWARC_ok H.
  all: try (pose proof (dumpResponseToFile_frame P c resp w) as (Ht & Hch & _);
            rewrite Hdump in Ht, Hch; simpl in Ht, Hch).
  all: match goal with |- context [Send ?B] => exists B end;
       match goal with |- context [warc.set_Records [?r1; ?r2] _] => exists r1, r2 end;
       eexists; simpl.
  all: split; [reflexivity|]; split; [reflexivity|]; split; [reflexivity|];
       (split; [reflexivity|]).
  - left. split; [lia|]. eexists. split; [reflexivity|]. simpl.
    rewrite Ht, Hch, <- app_assoc. auto 10.
  - left. split; [lia|]. eexists. split; [reflexivity|]. simpl.
    rewrite Ht. do 3 (split; [done|]). right.
    split; [|done]. by destruct (decide (s = "")).
  - right. split; [lia|]. eexists. split; [reflexivity|]. auto 10.
Qed.

Lemma spools_iff (n : Z) :
  (n =? -1) || (n >? 2097152) = true ↔ n = -1 ∨ n > 2097152.
Proof.
  destruct (Z.eqb_spec n (-1)), (Z.gtb_spec n 2097152); simpl; split; intros; lia || auto.
Qed.

(** ** Memory or disk *)

(** A response of known length, at most 2,097,152 bytes, whose two dumps
    succeed is archived from memory, whatever else the platform does. *)
Lemma writeWARC_in_memory
  (P : Platform) (c : Crawl) (resp : http.Response) (w : World)
  (responseDump requestDump : string) :
  http.ContentLength resp ≠ -1 →
  http.ContentLength resp <= 2097152 →
  DumpResponse P resp = Ok responseDump →
  DumpRequestOut P (http.Request_of resp) = Ok requestDump →
  ∃ w', writeWARC P c resp w = (("", None), w').
Proof.
  intros Hknown Hsmall Hresp Hreq. unfold writeWARC.
  destruct ((http.ContentLength resp =? -1) || (http.ContentLength resp >? 2097152))
    eqn:Hlen; [apply spools_iff in Hlen; lia|].
  rewrite Hresp, Hreq. run_M. eexists. reflexivity.
Qed.

(** C1, as stated, fails: a response of exactly 2,097,152 bytes is dumped in
    memory, not spooled. *)
Lemma buffers_below_2MiB_fails_at_2MiB :
  ¬ buffers_below_2MiB Demo.platform (Demo.crawl 0) Demo.response_2MiB Demo.world.
Proof.
  intros H.
  assert (Hlen : http.ContentLength Demo.response_2MiB = 2097152) by reflexivity.
  destruct (writeWARC_in_memory Demo.platform (Demo.crawl 0) Demo.response_2MiB
              Demo.world (Demo.serialize Demo.response_2MiB)
              (Demo.dump_request Demo.get)) as (w' & E);
    [lia | lia | reflexivity | reflexivity |].
  destruct (H _ _ E) as (b & rr & Hsent & Hrr & _ & Hspool).
  destruct Hspool as (Hnone & _); [lia|].
  destruct (writeWARC_success_inv _ _ _ _ _ _ E)
    as (b' & rr' & rq & rd & Hrec & _ & _ & _ & [[Hbig _] | [_ Hmem]]); [lia|].
  destruct Hmem as (d & _ & Hc & _ & _ & _ & _ & Ht).
  rewrite Ht, sent_app in Hsent. simpl in Hsent.
  injection Hsent as <-.
  rewrite Hrec in Hrr. injection Hrr as <-. congruence.
Qed.

(** C1, amended. In every successful [writeWARC] the response record is held
    in memory exactly when the content length is known and at most 2,097,152
    bytes: its content is then the dump of the response, it has no payload
    path, and no file is written. When the length is unknown or greater than
    2,097,152 the record has no content, its [PayloadPath] is the returned
    spool path, and the file at that path holds what [resp.Write] emitted. *)
Theorem writeWARC_buffers_up_to_2MiB
  (P : Platform) (c : Crawl) (resp : http.Response) (w w' : World) (path : string) :
  writeWARC P c resp w = ((path, None), w') →
  ∃ b responseRecord,
    sent (trace w') = sent (trace w) ++ [b]
    ∧ warc.Records b !! 0%nat = Some responseRecord
    ∧ (is_Some (warc.Content responseRecord)
       ↔ http.ContentLength resp ≠ -1 ∧ http.ContentLength resp <= 2097152)
    ∧ (http.ContentLength resp ≠ -1 ∧ http.ContentLength resp <= 2097152 →
       DumpResponse P resp
       = match warc.Content responseRecord with
         | Some responseDump => Ok responseDump
         | None => Err ""
         end
       ∧ warc.PayloadPath responseRecord = ""
       ∧ fs w' = fs w)
    ∧ (http.ContentLength resp = -1 ∨ http.ContentLength resp > 2097152 →
       warc.Content responseRecord = None
       ∧ warc.PayloadPath responseRecord = path
       ∧ path = spool_path P c w
       ∧ fs w' !! path
         = Some (default "" (fs w !! path) +:+ (Response_Write P resp).1)).
Proof.
  intros H.
  destruct (writeWARC_success_inv _ _ _ _ _ _ H)
    as (b & rr & rq & rd & Hrec & _ & _ & _ & Hcase).
  exists b, rr. rewrite Hrec. simpl.
  destruct Hcase as [[Hlen (w1 & Hdump & Hc & Hp & Hfs & Ht)]
                    | [Hlen (d & Hd & Hc & Hp & -> & _ & Hfs & Ht)]].
  - assert (Hs : sent (trace w') = sent (trace w) ++ [b]).
    { destruct Ht as [(_ & _ & ->) | (_ & _ & ->)]; by rewrite sent_app. }
    destruct (dumpResponseToFile_ok P c resp w path w1 Hdump) as (Hpath & _ & _ & Hfile).
    rewrite Hc, Hfs. repeat split; try done; try lia.
  - rewrite Ht, sent_app, Hc, Hd. repeat split; try done; try lia.
Qed.

Lemma writeWARC_buffers_up_to_2MiB_witness :
  let r := writeWARC Demo.platform (Demo.crawl 0) (Demo.response 5 "hello")
             Demo.world in
  ∃ responseRecord,
    omap (λ b, warc.Records b !! 0%nat) (sent (trace r.2)) = [responseRecord]
    ∧ is_Some (warc.Content responseRecord).
Proof.
  intros r.
  destruct (writeWARC_buffers_up_to_2MiB Demo.platform (Demo.crawl 0)
              (Demo.response 5 "hello") Demo.world r.2 r.1.1)
    as (b & rr & Hs & Hrr & Hmem & _).
  - vm_compute. reflexivity.
  - exists rr. rewrite Hs. simpl. rewrite Hrr. split; [reflexivity|].
    apply Hmem. simpl. lia.
Defined.

Lemma writeWARC_response_then_request_witness :
  let r := writeWARC Demo.platform (Demo.crawl 0) (Demo.response 5 "hello")
             Demo.world in
  ∃ responseRecord requestRecord,
    map warc.Records (sent (trace r.2)) = [[responseRecord; requestRecord]]
    ∧ warc.Header responseRecord !! "WARC-Type" = Some "response"
    ∧ warc.Header requestRecord !! "WARC-Type" = Some "request".
Proof.
  intros r.
  destruct (writeWARC_response_then_request Demo.platform (Demo.crawl 0)
              (Demo.response 5 "hello") Demo.world r.2 r.1.1)
    as (b & rr & rq & Hs & Hrec & Hresp & Hreq).
  - vm_compute. reflexivity.
  - exists rr, rq. rewrite Hs. simpl. rewrite Hrec. auto.
Defined.

(** ** Waiting for the writer *)

(** C4. In every successful [writeWARC] the one batch put on the channel has
    its [Done] channel set, and the call then receives from that channel,
    exactly when one of its records is backed by a [PayloadPath]. Otherwise
    the batch goes out without [Done] and nothing follows the send; this is
    the case whenever the response record holds its content in memory. *)
Theorem writeWARC_waits_iff_spooled
  (P : Platform) (c : Crawl) (resp : http.Response) (w w' : World) (path : string) :
  writeWARC P c resp w = ((path, None), w') →
  ∃ b,
    trace w' = trace w ++ Send b :: match warc.Done b with
                                   | Some ch => [RecvDone ch]
                                   | None => []
                                   end
    ∧ (is_Some (warc.Done b)
       ↔ ∃ r, r ∈ warc.Records b ∧ warc.PayloadPath r ≠ "")
    ∧ (∀ r, warc.Records b !! 0%nat = Some r →
            is_Some (warc.Content r) → warc.Done b = None).
Proof.
  intros H.
  destruct (writeWARC_success_inv _ _ _ _ _ _ H)
    as (b & rr & rq & rd & Hrec & _ & _ & Hrq & Hcase).
  exists b. rewrite Hrec. simpl.
  assert (Hin : ∀ r, r ∈ [rr; rq] → warc.PayloadPath r ≠ "" → r = rr).
  { intros r Hr Hp. set_unfold. destruct Hr as [-> | [-> | []]]; congruence. }
  destruct Hcase as [[_ (w1 & _ & Hc & Hp & _ & [(Hne & HD & Ht) | (He & HD & Ht)])]
                    | [_ (d & _ & Hc & Hp & _ & HD & _ & Ht)]];
    rewrite HD, Ht; (split; [reflexivity|]); split.
  - split; [intros _|by eauto]. exists rr. split; [set_solver|congruence].
  - intros r [= <-]. rewrite Hc. by intros [? [=]].
  - split; [by intros [? [=]]|]. intros (r & Hr & Hpr).
    apply Hin in Hr as ->; congruence.
  - done.
  - split; [by intros [? [=]]|]. intros (r & Hr & Hpr).
    apply Hin in Hr as ->; congruence.
  - done.
Qed.

Lemma writeWARC_waits_iff_spooled_witness :
  let r := writeWARC Demo.platform (Demo.crawl 0) (Demo.response (-1) "hello")
             Demo.world in
  ∃ b ch, warc.Done b = Some ch ∧ trace r.2 = [Send b; RecvDone ch].
Proof.
  intros r.
  destruct (writeWARC_waits_iff_spooled Demo.platform (Demo.crawl 0)
              (Demo.response (-1) "hello") Demo.world r.2 r.1.1)
    as (b & Ht & _ & _).
  - vm_compute. reflexivity.
  - exists b. destruct (warc.Done b) as [ch|] eqn:HD.
    + exists ch. split; [reflexivity|]. exact Ht.
    + exfalso. apply (f_equal length) in Ht. vm_compute in Ht. discriminate Ht.
Defined.

(** ** Cleaning up after a failed request dump *)

(** C5. When the response was spooled to a file and dumping the request then
    fails, [writeWARC] returns that error, and although the call created the
    file, no file is left at the spool path when it returns. Nothing was
    submitted to the writer and no other file changed. *)
Theorem writeWARC_request_dump_error_removes_spool
  (P : Platform) (c : Crawl) (resp : http.Response) (w w1 : World)
  (path : string) (e : error) :
  http.ContentLength resp = -1 ∨ http.ContentLength resp > 2097152 →
  dumpResponseToFile P c resp w = ((path, None), w1) →
  DumpRequestOut P (http.Request_of resp) = Err e →
  is_Some (fs w1 !! path)
  ∧ ∃ w', writeWARC P c resp w = ((path, Some e), w')
     ∧ fs w' !! path = None
     ∧ (∀ q, q ≠ path → fs w' !! q = fs w !! q)
     ∧ trace w' = trace w.
Proof.
  intros Hlen Hdump Hreq.
  destruct (dumpResponseToFile_ok P c resp w path w1 Hdump) as (Hpath & _ & _ & Hfile).
  pose proof (dumpResponseToFile_frame P c resp w) as (Ht & _ & _ & Hframe).
  rewrite Hdump in Ht, Hframe. simpl in Ht, Hframe. rewrite <- Hpath in Hframe.
  split; [by rewrite Hfile|].
  unfold writeWARC. apply spools_iff in Hlen. rewrite Hlen. run_M.
  rewrite Hdump, Hreq. simpl. eexists. split; [reflexivity|]. simpl.
  split; [apply lookup_delete_eq|]. split; [|done].
  intros q Hq. rewrite lookup_delete_ne by done. by apply Hframe.
Qed.

Lemma writeWARC_request_dump_error_removes_spool_witness :
  let P := Demo.platform_bad_request in
  let resp := Demo.response (-1) "hello" in
  let path := "jobs/demo/temp/6ba7b810-9dad-41d1-80b4-00c04fd430c0.temp" in
  is_Some (fs (dumpResponseToFile P (Demo.crawl 0) resp Demo.world).2 !! path)
  ∧ ∃ w', writeWARC P (Demo.crawl 0) resp Demo.world
          = ((path, Some "http: nil Request.URL"), w')
     ∧ fs w' !! path = None
     ∧ (∀ q, q ≠ path → fs w' !! q = fs Demo.world !! q)
     ∧ trace w' = trace Demo.world.
Proof.
  intros P resp path.
  apply (writeWARC_request_dump_error_removes_spool P (Demo.crawl 0) resp Demo.world
           (dumpResponseToFile P (Demo.crawl 0) resp Demo.world).2 path
           "http: nil Request.URL").
  - left. reflexivity.
  - vm_compute. reflexivity.
  - reflexivity.
Defined.

(** ** Record headers *)

(** Both records of [writeWARCFromConnection] carry the four headers. *)
Lemma conn_records_headers
  (P : Platform) (URL : url.URL) (req resp : io.Reader)
  (requestRecord responseRecord : warc.Record_) :
  connRequestRecord P URL req = Ok requestRecord →
  connResponseRecord P URL resp = Ok responseRecord →
  (warc.Header requestRecord !! "WARC-Type" = Some "request"
   ∧ warc.Header requestRecord !! "WARC-Target-URI" = Some (URL_String P URL)
   ∧ warc.Header requestRecord !! "Host" = Some (url.Host URL)
   ∧ warc.Header requestRecord !! "Content-Type"
     = Some "application/http; msgtype=request")
  ∧ (warc.Header responseRecord !! "WARC-Type" = Some "response"
     ∧ warc.Header responseRecord !! "WARC-Target-URI" = Some (URL_String P URL)
     ∧ warc.Header responseRecord !! "Host" = Some (url.Host URL)
     ∧ warc.Header responseRecord !! "Content-Type"
       = Some "application/http; msgtype=response").
Proof.
  unfold connRequestRecord, connResponseRecord.
  destruct (io.fault req), (io.fault resp); try discriminate.
  intros [= <-] [= <-]. simpl. repeat split; reflexivity.
Qed.

(** C3. The request record of every successful [writeWARC] carries the four
    headers, and its response record carries [WARC-Type], [WARC-Target-URI]
    and [Content-Type] with the values of a response; but the response
    record has no [Host] header at all. *)
Theorem writeWARC_response_record_has_no_Host
  (P : Platform) (c : Crawl) (resp : http.Response) (w w' : World) (path : string) :
  writeWARC P c resp w = ((path, None), w') →
  let URL := http.URL (http.Request_of resp) in
  ∃ b responseRecord requestRecord,
    sent (trace w') = sent (trace w) ++ [b]
    ∧ warc.Records b = [responseRecord; requestRecord]
    ∧ (warc.Header requestRecord !! "WARC-Type" = Some "request"
       ∧ warc.Header requestRecord !! "WARC-Target-URI"
         = Some (QueryEscape P (URL_String P URL))
       ∧ warc.Header requestRecord !! "Host" = Some (url.Host URL)
       ∧ warc.Header requestRecord !! "Content-Type"
         = Some "application/http; msgtype=request")
    ∧ (warc.Header responseRecord !! "WARC-Type" = Some "response"
       ∧ warc.Header responseRecord !! "WARC-Target-URI"
         = Some (QueryEscape P (URL_String P URL))
       ∧ warc.Header responseRecord !! "Content-Type"
         = Some "application/http; msgtype=response")
    ∧ warc.Header responseRecord !! "Host" = None.
Proof.
  intros H URL. subst URL. writeWARC_ok H.
  all: match goal with |- context [Send ?B] => exists B end;
       match goal with |- context [warc.set_Records [?r1; ?r2] _] => exists r1, r2 end;
       simpl; rewrite ?sent_app; simpl; rewrite ?app_nil_r.
  all: try (pose proof (dumpResponseToFile_frame P c resp w) as (Ht & _);
            rewrite Hdump in Ht; simpl in Ht; rewrite Ht).
  all: repeat split; reflexivity.
Qed.

Lemma writeWARC_response_record_has_no_Host_witness :
  let r := writeWARC Demo.platform (Demo.crawl 0) (Demo.response 5 "hello")
             Demo.world in
  ∃ responseRecord requestRecord,
    map warc.Records (sent (trace r.2)) = [[responseRecord; requestRecord]]
    ∧ warc.Header requestRecord !! "Host" = Some "example.com"
    ∧ warc.Header responseRecord !! "Host" = None.
Proof.
  intros r.
  destruct (writeWARC_response_record_has_no_Host Demo.platform (Demo.crawl 0)
              (Demo.response 5 "hello") Demo.world r.2 r.1.1)
    as (b & rr & rq & Hs & Hrec & (_ & _ & Hhost & _) & _ & Hnone).
  - vm_compute. reflexivity.
  - exists rr, rq. rewrite Hs. simpl. rewrite Hrec. auto.
Defined.

(** ** The capture orchestrator *)

Section Capture_facts.
Context (P : Platform) (c : Crawl) (item : queue.Item) (w : World).

(** Neither variant touches the rate counter. *)
Lemma captureWithBrowser_incrs :
  incrs (trace (captureWithBrowser P c item w).2) = incrs (trace w).
Proof.
  unfold captureWithBrowser, extract_action. run_M.
  destruct (network_Enable P); [done|].
  destruct (Navigate P _); [done|].
  destruct (MaxHops c >? 0); [|done].
  destruct (GetDocument P); [|done].
  destruct (GetOuterHTML P _); [|done].
  simpl. rewrite incrs_app. simpl. apply app_nil_r.
Qed.

Lemma captureWithGET_incrs :
  incrs (trace (captureWithGET P c item w).2) = incrs (trace w).
Proof.
  unfold captureWithGET. run_M.
  destruct (http_Get P _); [|done].
  destruct (io.ReadAll _); [|done].
  simpl. rewrite incrs_app. simpl. apply app_nil_r.
Qed.
End Capture_facts.

(** C6. Every call of [Capture] increments the rate counter exactly once, by
    one, whichever variant ran and whether it returned an error or not: the
    increments recorded after the call are those before it followed by a
    single 1. *)
Theorem Capture_increments_once
  (P : Platform) (c : Crawl) (item : queue.Item) (w : World) :
  incrs (trace (Capture P c item w).2) = incrs (trace w) ++ [1].
Proof.
  unfold Capture. run_M.
  destruct (needBrowser P item && Headless c).
  - pose proof (captureWithBrowser_incrs P c item w) as Hi.
    destruct (captureWithBrowser P c item w) as [[outlinks [e|]] w1]; simpl in *;
      by rewrite incrs_app, Hi.
  - pose proof (captureWithGET_incrs P c item w) as Hi.
    destruct (captureWithGET P c item w) as [[outlinks [e|]] w1]; simpl in *;
      by rewrite incrs_app, Hi.
Qed.

(** C7. With a hop limit that is not greater than zero, [captureWithBrowser]
    never calls [extractOutlinks] (it leaves the world as it found it) and
    returns no outlinks, with or without an error and whatever the page
    holds. *)
Theorem captureWithBrowser_no_hops_no_extraction
  (P : Platform) (c : Crawl) (item : queue.Item) (w : World) :
  MaxHops c <= 0 →
  (captureWithBrowser P c item w).1.1 = []
  ∧ (captureWithBrowser P c item w).2 = w.
Proof.
  intros Hhops. unfold captureWithBrowser, extract_action. run_M.
  destruct (network_Enable P); [done|].
  destruct (Navigate P _); [done|].
  destruct (Z.gtb_spec (MaxHops c) 0); [lia|done].
Qed.

Lemma captureWithBrowser_no_hops_no_extraction_witness :
  (captureWithBrowser Demo.platform (Demo.crawl 0) Demo.item Demo.world).1.1 = []
  ∧ (captureWithBrowser Demo.platform (Demo.crawl 0) Demo.item Demo.world).2
    = Demo.world.
Proof.
  apply (captureWithBrowser_no_hops_no_extraction Demo.platform
           (Demo.crawl 0) Demo.item Demo.world).
  simpl. lia.
Defined.

(** With a positive hop limit the same page does yield its outlinks. *)
Example captureWithBrowser_one_hop :
  (captureWithBrowser Demo.platform (Demo.crawl 1) Demo.item Demo.world).1
  = ([Demo.link], None)
  ∧ extracts (trace (captureWithBrowser Demo.platform (Demo.crawl 1)
                       Demo.item Demo.world).2) = ["<a href=/next>"].
Proof. split; reflexivity. Qed.

(** C9. Whatever the hop limit, zero included, a [captureWithGET] whose GET
    succeeds and whose body is read to its end calls [extractOutlinks] once,
    on the whole body, and returns what it gave, without error; changing the
    hop limit changes nothing of what the call does. *)
Theorem captureWithGET_extracts_whatever_the_hop_limit
  (P : Platform) (c : Crawl) (item : queue.Item) (w : World) (resp : http.Response) :
  http_Get P (URL_String P (queue.URL item)) = Ok resp →
  io.fault (http.Body resp) = None →
  (captureWithGET P c item w).1
  = (extractOutlinks P (io.data (http.Body resp)), None)
  ∧ trace (captureWithGET P c item w).2
    = trace w ++ [Extract (io.data (http.Body resp))]
  ∧ ∀ hops, captureWithGET P {| JobPath := JobPath c; MaxHops := hops;
                                Headless := Headless c |} item w
            = captureWithGET P c item w.
Proof.
  intros Hget Hbody. unfold captureWithGET, io.ReadAll. run_M.
  rewrite Hget, Hbody. simpl. done.
Qed.

Lemma captureWithGET_extracts_whatever_the_hop_limit_witness :
  MaxHops (Demo.crawl 0) = 0
  ∧ (captureWithGET Demo.platform (Demo.crawl 0) Demo.item Demo.world).1
    = ([Demo.link], None)
  ∧ trace (captureWithGET Demo.platform (Demo.crawl 0) Demo.item Demo.world).2
    = [Extract "<a href=/next>"].
Proof.
  split; [reflexivity|].
  destruct (captureWithGET_extracts_whatever_the_hop_limit Demo.platform
              (Demo.crawl 0) Demo.item Demo.world (Demo.response 14 "<a href=/next>"))
    as (Hout & Htrace & _); [reflexivity..|].
  split; [exact Hout | exact Htrace].
Defined.


(** * Further properties of the modelled functions *)

(** ** [dumpResponseToFile] on a name that is taken *)

(** When a file already bears the name [dumpResponseToFile] picks, the open
    (append mode) keeps it: a successful call leaves the old bytes followed
    by the serialized response; a failed open leaves the file as it was; a
    failed write removes the file, old bytes included. *)
Theorem dumpResponseToFile_on_existing_file
  (P : Platform) (c : Crawl) (resp : http.Response) (w : World) (old : string) :
  let p := spool_path P c w in
  fs w !! p = Some old →
  let '((path, err), w') := dumpResponseToFile P c resp w in
  match err with
  | None => path = p ∧ fs w' !! p = Some (old +:+ (Response_Write P resp).1)
  | Some e =>
      path = ""
      ∧ ((OpenFile_err P p = Some e ∧ fs w' !! p = Some old)
         ∨ (OpenFile_err P p = None ∧ (Response_Write P resp).2 = Some e
            ∧ fs w' !! p = None))
  end.
Proof.
  intros p Hold. unfold dumpResponseToFile. run_M.
  change (filepath_Join P [JobPath c; "temp"; uuid_NewV4 P (uuids w) +:+ ".temp"])
    with p.
  destruct (OpenFile_err P p) as [e|] eqn:Hopen; simpl; [by auto|].
  rewrite Hold.
  destruct (Response_Write P resp) as [out [e|]] eqn:Hwrite; simpl.
  - split; [done|]. right. by rewrite lookup_delete_eq.
  - by rewrite Hold, lookup_insert_eq.
Qed.

Lemma dumpResponseToFile_on_existing_file_witness :
  let p := "jobs/demo/temp/6ba7b810-9dad-41d1-80b4-00c04fd430c0.temp" in
  (dumpResponseToFile Demo.platform (Demo.crawl 0) Faulty.response_cut
     Faulty.world_taken).1 = ("", Some "unexpected EOF")
  ∧ fs (dumpResponseToFile Demo.platform (Demo.crawl 0) Faulty.response_cut
          Faulty.world_taken).2 !! p = None.
Proof.
  intros p.
  pose proof (dumpResponseToFile_on_existing_file Demo.platform (Demo.crawl 0)
                Faulty.response_cut Faulty.world_taken "old" eq_refl) as H.
  destruct (dumpResponseToFile Demo.platform (Demo.crawl 0) Faulty.response_cut
              Faulty.world_taken) as [[path [e|]] w'] eqn:E.
  - destruct H as [-> [[Hopen _] | (_ & Hw & Hfs)]]; [discriminate Hopen|].
    injection Hw as <-. split; [reflexivity | exact Hfs].
  - apply (f_equal (λ r, r.1.2)) in E. vm_compute in E. discriminate E.
Defined.

(** A later dump leaves the file of an earlier one alone, as long as the two
    names differ. *)
Theorem dumpResponseToFile_twice
  (P : Platform) (c : Crawl) (resp1 resp2 : http.Response) (w w1 : World)
  (path1 : string) :
  dumpResponseToFile P c resp1 w = ((path1, None), w1) →
  spool_path P c w1 ≠ path1 →
  let w2 := (dumpResponseToFile P c resp2 w1).2 in
  fs w2 !! path1 = Some (default "" (fs w !! path1) +:+ (Response_Write P resp1).1)
  ∧ uuids w2 = S (S (uuids w)).
Proof.
  intros H1 Hne w2.
  destruct (dumpResponseToFile_ok P c resp1 w path1 w1 H1) as (_ & _ & _ & Hfile).
  pose proof (dumpResponseToFile_frame P c resp1 w) as (_ & _ & Hu1 & _).
  pose proof (dumpResponseToFile_frame P c resp2 w1) as (_ & _ & Hu2 & Hframe).
  rewrite H1 in Hu1. simpl in Hu1. subst w2.
  rewrite Hu2, Hu1, Hframe by done. done.
Qed.

Lemma dumpResponseToFile_twice_witness :
  let w1 := (dumpResponseToFile Demo.platform (Demo.crawl 0)
               (Demo.response (-1) "hello") Demo.world).2 in
  let w2 := (dumpResponseToFile Demo.platform (Demo.crawl 0)
               (Demo.response (-1) "again") w1).2 in
  fs w2 !! "jobs/demo/temp/6ba7b810-9dad-41d1-80b4-00c04fd430c0.temp"
  = Some (Demo.serialize (Demo.response (-1) "hello"))
  ∧ uuids w2 = 2%nat.
Proof.
  intros w1 w2.
  apply (dumpResponseToFile_twice Demo.platform (Demo.crawl 0)
           (Demo.response (-1) "hello") (Demo.response (-1) "again") Demo.world w1
           "jobs/demo/temp/6ba7b810-9dad-41d1-80b4-00c04fd430c0.temp").
  - vm_compute. reflexivity.
  - vm_compute. discriminate.
Defined.

(** ** [writeWARC] when it fails, and what it leaves on disk *)

(** With a fresh name, [dumpResponseToFile] changes the file system only by
    the one file it returns. *)
Lemma dumpResponseToFile_fresh_fs
  (P : Platform) (c : Crawl) (resp : http.Response) (w : World) :
  fs w !! spool_path P c w = None →
  fs (dumpResponseToFile P c resp w).2
  = match (dumpResponseToFile P c resp w).1.2 with
    | None => <[spool_path P c w := (Response_Write P resp).1]> (fs w)
    | Some _ => fs w
    end.
Proof.
  intros Hfresh. unfold dumpResponseToFile. run_M.
  change (filepath_Join P [JobPath c; "temp"; uuid_NewV4 P (uuids w) +:+ ".temp"])
    with (spool_path P c w).
  destruct (OpenFile_err P _) as [e|]; simpl; [done|].
  rewrite Hfresh.
  destruct (Response_Write P resp) as [out [e|]]; simpl;
    rewrite lookup_insert_eq; simpl.
  - by rewrite delete_insert_eq, delete_insert_id.
  - by rewrite insert_insert_eq.
Qed.

(** A [writeWARC] that returns an error has put nothing on the writer
    channel, has not waited for the writer, and has made no channel. *)
Theorem writeWARC_error_sends_nothing
  (P : Platform) (c : Crawl) (resp : http.Response) (w : World) (e : error) :
  (writeWARC P c resp w).1.2 = Some e →
  trace (writeWARC P c resp w).2 = trace w
  ∧ chans (writeWARC P c resp w).2 = chans w.
Proof.
  pose proof (dumpResponseToFile_frame P c resp w) as (Ht & Hch & _).
  unfold writeWARC. run_M.
  destruct ((http.ContentLength resp =? -1) || (http.ContentLength resp >? 2097152)).
  - destruct (dumpResponseToFile P c resp w) as [[p [e'|]] w1]; simpl in *; [done|].
    destruct (DumpRequestOut P _); simpl; [|done].
    destruct (decide (p ≠ "")); simpl; discriminate.
  - destruct (DumpResponse P resp); simpl; [|done].
    destruct (DumpRequestOut P _); simpl; [discriminate|done].
Qed.

Lemma writeWARC_error_sends_nothing_witness :
  trace (writeWARC Demo.platform_bad_request (Demo.crawl 0)
           (Demo.response (-1) "hello") Demo.world).2 = []
  ∧ chans (writeWARC Demo.platform_bad_request (Demo.crawl 0)
             (Demo.response (-1) "hello") Demo.world).2 = 0%nat.
Proof.
  apply (writeWARC_error_sends_nothing Demo.platform_bad_request (Demo.crawl 0)
           (Demo.response (-1) "hello") Demo.world "http: nil Request.URL").
  vm_compute. reflexivity.
Defined.

(** Whatever makes [writeWARC] fail (the open, the write to the spool file,
    the dump of the response or the dump of the request), the file system
    is afterwards what it was before the call, provided the spool name was
    free and no file has the empty name. *)
Theorem writeWARC_error_restores_files
  (P : Platform) (c : Crawl) (resp : http.Response) (w : World) (e : error) :
  fs w !! spool_path P c w = None →
  fs w !! "" = None →
  (writeWARC P c resp w).1.2 = Some e →
  fs (writeWARC P c resp w).2 = fs w.
Proof.
  intros Hfresh Hempty.
  pose proof (dumpResponseToFile_fresh_fs P c resp w Hfresh) as Hfs.
  pose proof (dumpResponseToFile_path P c resp w) as Hpath.
  unfold writeWARC. run_M.
  destruct ((http.ContentLength resp =? -1) || (http.ContentLength resp >? 2097152)).
  - destruct (dumpResponseToFile P c resp w) as [[p [e'|]] w1]; simpl in *; [done|].
    destruct (DumpRequestOut P _); simpl.
    + destruct (decide (p ≠ "")); simpl; discriminate.
    + intros _. rewrite Hfs, Hpath, delete_insert_eq. by apply delete_id.
  - destruct (DumpResponse P resp); simpl; [|done].
    destruct (DumpRequestOut P _); simpl; [discriminate|].
    intros _. by apply delete_id.
Qed.

Lemma writeWARC_error_restores_files_witness :
  fs (writeWARC Demo.platform (Demo.crawl 0) Faulty.response_cut Demo.world).2
  = fs Demo.world.
Proof.
  apply (writeWARC_error_restores_files Demo.platform (Demo.crawl 0)
           Faulty.response_cut Demo.world "unexpected EOF").
  - reflexivity.
  - reflexivity.
  - vm_compute. reflexivity.
Defined.

(** A response of known length of at most 2,097,152 bytes never reaches the
    disk: whether [writeWARC] succeeds or fails, it returns the empty path,
    draws no UUID and leaves every file as it was. *)
Theorem writeWARC_small_response_stays_off_disk
  (P : Platform) (c : Crawl) (resp : http.Response) (w : World) :
  http.ContentLength resp ≠ -1 →
  http.ContentLength resp <= 2097152 →
  fs w !! "" = None →
  (writeWARC P c resp w).1.1 = ""
  ∧ uuids (writeWARC P c resp w).2 = uuids w
  ∧ fs (writeWARC P c resp w).2 = fs w.
Proof.
  intros Hknown Hsmall Hempty. unfold writeWARC.
  destruct ((http.ContentLength resp =? -1) || (http.ContentLength resp >? 2097152))
    eqn:Hlen; [apply spools_iff in Hlen; lia|].
  run_M.
  destruct (DumpResponse P resp); simpl; [|done].
  destruct (DumpRequestOut P _); simpl; [done|].
  by rewrite delete_id.
Qed.

Lemma writeWARC_small_response_stays_off_disk_witness :
  (writeWARC Demo.platform (Demo.crawl 0) Demo.response_2MiB Demo.world).1.1 = ""
  ∧ uuids (writeWARC Demo.platform (Demo.crawl 0) Demo.response_2MiB Demo.world).2
    = 0%nat
  ∧ fs (writeWARC Demo.platform (Demo.crawl 0) Demo.response_2MiB Demo.world).2 = ∅.
Proof.
  apply (writeWARC_small_response_stays_off_disk Demo.platform (Demo.crawl 0)
           Demo.response_2MiB Demo.world).
  - change (2097152 ≠ -1). lia.
  - change (2097152 <= 2097152). lia.
  - reflexivity.
Defined.

(** The request record of a successful [writeWARC] is always held in
    memory, whatever the size of the exchange: its content is the dump of
    the outgoing request and it has no payload path. *)
Theorem writeWARC_request_record_in_memory
  (P : Platform) (c : Crawl) (resp : http.Response) (w w' : World) (path : string) :
  writeWARC P c resp w = ((path, None), w') →
  ∃ b requestRecord requestDump,
    sent (trace w') = sent (trace w) ++ [b]
    ∧ warc.Records b !! 1%nat = Some requestRecord
    ∧ DumpRequestOut P (http.Request_of resp) = Ok requestDump
    ∧ warc.Content requestRecord = Some requestDump
    ∧ warc.PayloadPath requestRecord = "".
Proof.
  intros H.
  destruct (writeWARC_success_inv _ _ _ _ _ _ H)
    as (b & rr & rq & rd & Hrec & Hd & Hc & Hp & Hcase).
  exists b, rq, rd. rewrite Hrec. repeat split; try done.
  destruct Hcase as [[_ (w1 & _ & _ & _ & _ & [(_ & _ & ->) | (_ & _ & ->)])]
                    | [_ (d & _ & _ & _ & _ & _ & _ & ->)]];
    by rewrite sent_app.
Qed.

Lemma writeWARC_request_record_in_memory_witness :
  let r := writeWARC Demo.platform (Demo.crawl 0) (Demo.response (-1) "hello")
             Demo.world in
  ∃ requestRecord,
    omap (λ b, warc.Records b !! 1%nat) (sent (trace r.2)) = [requestRecord]
    ∧ warc.Content requestRecord = Some (Demo.dump_request Demo.get)
    ∧ warc.PayloadPath requestRecord = "".
Proof.
  intros r.
  destruct (writeWARC_request_record_in_memory Demo.platform (Demo.crawl 0)
              (Demo.response (-1) "hello") Demo.world r.2 r.1.1)
    as (b & rq & rd & Hs & Hrq & Hd & Hc & Hp).
  - vm_compute. reflexivity.
  - exists rq. rewrite Hs. simpl. rewrite Hrq. injection Hd as <-. auto.
Defined.

Lemma conn_records_headers_witness :
  ∃ requestRecord responseRecord,
    connRequestRecord Demo.platform Demo.page
      {| io.data := Demo.dump_request Demo.get; io.fault := None |} = Ok requestRecord
    ∧ connResponseRecord Demo.platform Demo.page
        {| io.data := "hello"; io.fault := None |} = Ok responseRecord
    ∧ warc.Header requestRecord !! "Host" = Some "example.com"
    ∧ warc.Header responseRecord !! "Host" = Some "example.com"
    ∧ warc.Header responseRecord !! "WARC-Target-URI"
      = Some "http://example.com/index.html".
Proof.
  do 2 eexists. split; [reflexivity|]. split; [reflexivity|].
  destruct (conn_records_headers Demo.platform Demo.page
              {| io.data := Demo.dump_request Demo.get; io.fault := None |}
              {| io.data := "hello"; io.fault := None |} _ _ eq_refl eq_refl)
    as [(_ & _ & Hq & _) (_ & Hu & Hr & _)].
  split; [exact Hq|]. split; [exact Hr | exact Hu].
Defined.

(** ** The two capture variants when they fail *)

(** A [captureWithBrowser] that returns an error returns no outlinks and
    has not called [extractOutlinks]: the world is as it was. *)
Theorem captureWithBrowser_error_no_outlinks
  (P : Platform) (c : Crawl) (item : queue.Item) (w : World) (e : error) :
  (captureWithBrowser P c item w).1.2 = Some e →
  (captureWithBrowser P c item w).1.1 = []
  ∧ (captureWithBrowser P c item w).2 = w.
Proof.
  unfold captureWithBrowser, extract_action. run_M.
  destruct (network_Enable P); [done|].
  destruct (Navigate P _); [done|].
  destruct (MaxHops c >? 0); [|done].
  destruct (GetDocument P); [|done].
  destruct (GetOuterHTML P _); [discriminate|done].
Qed.

Lemma captureWithBrowser_error_no_outlinks_witness :
  (captureWithBrowser Faulty.platform_offline (Demo.crawl 3) Demo.item Demo.world).1.1 = []
  ∧ (captureWithBrowser Faulty.platform_offline (Demo.crawl 3) Demo.item Demo.world).2
    = Demo.world.
Proof.
  apply (captureWithBrowser_error_no_outlinks Faulty.platform_offline (Demo.crawl 3)
           Demo.item Demo.world "page load error net::ERR_CONNECTION_REFUSED").
  reflexivity.
Defined.

(** A [captureWithBrowser] that returns without error under a positive hop
    limit has gone through every step: the network domain was enabled, the
    navigation succeeded, the root node and its outer HTML were obtained, and
    the outlinks returned are those of that HTML, extracted in one call. *)
Theorem captureWithBrowser_success_has_extracted
  (P : Platform) (c : Crawl) (item : queue.Item) (w : World) :
  0 < MaxHops c →
  (captureWithBrowser P c item w).1.2 = None →
  ∃ node html,
    network_Enable P = None
    ∧ Navigate P (URL_String P (queue.URL item)) = None
    ∧ GetDocument P = Ok node
    ∧ GetOuterHTML P node = Ok html
    ∧ (captureWithBrowser P c item w).1.1 = extractOutlinks P html
    ∧ trace (captureWithBrowser P c item w).2 = trace w ++ [Extract html].
Proof.
  intros Hhops. unfold captureWithBrowser, extract_action. run_M.
  destruct (network_Enable P); [done|].
  destruct (Navigate P _); [done|].
  destruct (Z.gtb_spec (MaxHops c) 0); [|lia].
  destruct (GetDocument P) as [node|]; [|done].
  destruct (GetOuterHTML P node) as [html|] eqn:Hhtml; [|done].
  intros _. exists node, html. by rewrite Hhtml.
Qed.

Lemma captureWithBrowser_success_has_extracted_witness :
  ∃ html,
    (captureWithBrowser Demo.platform (Demo.crawl 2) Demo.item Demo.world).1.1
    = Demo.extract_outlinks html
    ∧ trace (captureWithBrowser Demo.platform (Demo.crawl 2) Demo.item Demo.world).2
      = [Extract html].
Proof.
  destruct (captureWithBrowser_success_has_extracted Demo.platform (Demo.crawl 2)
              Demo.item Demo.world) as (node & html & _ & _ & _ & _ & Ho & Ht).
  - simpl. lia.
  - reflexivity.
  - exists html. split; [exact Ho | exact Ht].
Defined.

(** A [captureWithGET] that returns an error returns no outlinks and has
    not called [extractOutlinks]; the error is that of the GET, or else that
    of reading the body, of which nothing read so far is parsed. *)
Theorem captureWithGET_error_no_outlinks
  (P : Platform) (c : Crawl) (item : queue.Item) (w : World) (e : error) :
  (captureWithGET P c item w).1.2 = Some e →
  (captureWithGET P c item w).1.1 = []
  ∧ (captureWithGET P c item w).2 = w
  ∧ (http_Get P (URL_String P (queue.URL item)) = Err e
     ∨ ∃ resp, http_Get P (URL_String P (queue.URL item)) = Ok resp
               ∧ io.fault (http.Body resp) = Some e).
Proof.
  unfold captureWithGET, io.ReadAll. run_M.
  destruct (http_Get P _) as [resp|e']; simpl.
  - destruct (io.fault (http.Body resp)) as [e'|] eqn:Hf; simpl; [|discriminate].
    intros [= ->]. eauto 6.
  - intros [= ->]. auto.
Qed.

Lemma captureWithGET_error_no_outlinks_witness :
  (captureWithGET Faulty.platform_offline (Demo.crawl 3) Demo.item Demo.world).1.1 = []
  ∧ (captureWithGET Faulty.platform_offline (Demo.crawl 3) Demo.item Demo.world).2
    = Demo.world.
Proof.
  destruct (captureWithGET_error_no_outlinks Faulty.platform_offline (Demo.crawl 3)
              Demo.item Demo.world "dial tcp: connection refused")
    as (Ho & Hw & _).
  - reflexivity.
  - split; [exact Ho | exact Hw].
Defined.

(** ** [Capture] as a whole *)

(** What [Capture] returns is what the variant it chose returned, error
    and outlinks alike (a failed variant has no outlinks to drop), and the
    increment of the rate counter comes after everything the variant did. *)
Theorem Capture_is_variant_then_increment
  (P : Platform) (c : Crawl) (item : queue.Item) (w : World) :
  let variant :=
    if needBrowser P item && Headless c
    then captureWithBrowser P c item w
    else captureWithGET P c item w in
  (Capture P c item w).1 = variant.1
  ∧ trace (Capture P c item w).2 = trace variant.2 ++ [Incr 1].
Proof.
  unfold Capture, captureWithBrowser, extract_action, captureWithGET. run_M.
  destruct (needBrowser P item && Headless c).
  - destruct (network_Enable P); simpl; [done|].
    destruct (Navigate P _); simpl; [done|].
    destruct (MaxHops c >? 0); simpl; [|done].
    destruct (GetDocument P); simpl; [|done].
    destruct (GetOuterHTML P _); simpl; done.
  - destruct (http_Get P _); simpl; [|done].
    destruct (io.ReadAll _); simpl; done.
Qed.

(** With headless mode off [Capture] fetches directly even an item that
    needs a browser: when the GET and the body read succeed it returns the
    outlinks of the body, having extracted first and counted afterwards. *)
Theorem Capture_without_headless
  (P : Platform) (c : Crawl) (item : queue.Item) (w : World) (resp : http.Response) :
  Headless c = false →
  http_Get P (URL_String P (queue.URL item)) = Ok resp →
  io.fault (http.Body resp) = None →
  (Capture P c item w).1 = (extractOutlinks P (io.data (http.Body resp)), None)
  ∧ trace (Capture P c item w).2
    = trace w ++ [Extract (io.data (http.Body resp)); Incr 1].
Proof.
  intros Hh Hget Hbody. unfold Capture, captureWithGET, io.ReadAll. run_M.
  rewrite Hh, andb_false_r, Hget, Hbody. simpl.
  by rewrite <- app_assoc.
Qed.

Lemma Capture_without_headless_witness :
  let P := Unique.platform_browser_needed in
  let c := {| JobPath := "jobs/demo"; MaxHops := 0; Headless := false |} in
  needBrowser P Demo.item = true
  ∧ (Capture P c Demo.item Demo.world).1 = ([Demo.link], None)
  ∧ trace (Capture P c Demo.item Demo.world).2
    = [Extract "<a href=/next>"; Incr 1].
Proof.
  intros P c. split; [reflexivity|].
  apply (Capture_without_headless P c Demo.item Demo.world
           (Demo.response 14 "<a href=/next>")); reflexivity.
Defined.


(** * [writeWARCFromConnection] under every schedule *)

Lemma conn_step_in_next (t : conn.thread) (s s' : conn.state) :
  conn.step t s = Some s' → s' ∈ conn.next s.
Proof.
  intros H. unfold conn.next. apply list_elem_of_omap.
  exists t. split; [destruct t; set_solver | done].
Qed.

Lemma conn_stuck_next (s : conn.state) :
  (∀ t, conn.step t s = None) → conn.next s = [].
Proof. intros H. unfold conn.next. simpl. by rewrite !H. Qed.

Lemma conn_explore_stuck (n : nat) (s : conn.state) :
  conn.next s = [] → conn.explore n s = [Some s].
Proof. intros H. destruct n; simpl; by rewrite H. Qed.

Lemma conn_explore_0 (s : conn.state) :
  conn.next s ≠ [] → conn.explore 0 s = [None].
Proof. intros H. simpl. by destruct (conn.next s). Qed.

Lemma conn_explore_S (n : nat) (s : conn.state) :
  conn.next s ≠ [] → conn.explore (S n) s = conn.next s ≫= conn.explore n.
Proof. intros H. simpl. by destruct (conn.next s). Qed.

(** [conn.explore] misses no run: when it meets no run longer than its
    fuel, every schedule that can be run is at most that long, and every
    state in which a run is stuck is among the ends it lists. *)
Lemma conn_explore_covers (n : nat) (s : conn.state) :
  None ∉ conn.explore n s →
  ∀ sched s', conn.exec sched s = Some s' →
    (length sched ≤ n)%nat
    ∧ ((∀ t, conn.step t s' = None) → Some s' ∈ conn.explore n s).
Proof.
  revert s. induction n as [|n IH]; intros s Hn sched s' Hex.
  all: destruct sched as [|t sched]; simpl in Hex;
    [ injection Hex as <-; split; [simpl; lia|]; intros Hstuck;
      rewrite (conn_explore_stuck _ s (conn_stuck_next s Hstuck));
      by apply list_elem_of_singleton
    | destruct (conn.step t s) as [s1|] eqn:Hst; [|discriminate Hex];
      apply conn_step_in_next in Hst;
      assert (Hne : conn.next s ≠ [])
        by (intros E; rewrite E in Hst; by apply elem_of_nil in Hst) ].
  - rewrite (conn_explore_0 s Hne) in Hn. set_solver.
  - rewrite (conn_explore_S n s Hne) in Hn |- *.
    assert (Hn1 : None ∉ conn.explore n s1).
    { intros Hin. apply Hn. apply list_elem_of_bind. eauto. }
    destruct (IH s1 Hn1 sched s' Hex) as [Hlen Hend].
    split; [simpl; lia|]. intros Hstuck.
    apply list_elem_of_bind. eauto.
Qed.

(** Decides the membership hypotheses left by a computed [conn.explore]. *)
Ltac conn_ends H :=
  repeat (apply elem_of_cons in H as [H|H]; [injection H as ->|]);
  try (by apply elem_of_nil in H).

(** C2. [writeWARCFromConnection] never calls [swg.Add()], so its barrier
    counts nothing. Whenever both pipes deliver their bytes: [swg.Wait()]
    lets the function through at once, before either goroutine has drained
    anything; under every schedule the run is over after at most eight
    steps, and whenever no thread can move any more the function has
    returned, having submitted one batch without [Done] that holds both
    records, in either order; but both goroutines are then blocked for good
    inside their deferred [swg.Done()]. *)
Theorem writeWARCFromConnection_barrier_never_waits
  (P : Platform) (URL : url.URL) (req resp : io.Reader) (rq rs : warc.Record_) :
  connRequestRecord P URL req = Ok rq →
  connResponseRecord P URL resp = Ok rs →
  let s0 := conn.start P URL req resp in
  (∃ s1, conn.exec [conn.Main] s0 = Some s1
         ∧ conn.main s1 = conn.AtRecv 0
         ∧ conn.request s1 = conn.Body (Ok rq)
         ∧ conn.response s1 = conn.Body (Ok rs))
  ∧ ∀ sched s, conn.exec sched s0 = Some s →
      (length sched ≤ 8)%nat
      ∧ ((∀ t, conn.step t s = None) →
         conn.main s = conn.Returned
         ∧ (∃ b, conn.WARCWriter s = [b] ∧ warc.Done b = None
                 ∧ (warc.Records b = [rq; rs] ∨ warc.Records b = [rs; rq]))
         ∧ conn.WaitGroup_Done s = 1%nat
         ∧ conn.panicked s = None
         ∧ conn.request s = conn.Releasing None
         ∧ conn.response s = conn.Releasing None).
Proof.
  intros Hrq Hrs s0. subst s0. unfold conn.start. rewrite Hrq, Hrs.
  split; [eexists; split; [reflexivity|]; by repeat split|].
  intros sched s Hex.
  match type of Hex with conn.exec _ ?s0 = _ =>
    assert (Hnone : None ∉ conn.explore 8 s0)
      by (vm_compute;
          repeat (apply not_elem_of_cons; split; [discriminate|]);
          apply not_elem_of_nil);
    destruct (conn_explore_covers 8 s0 Hnone sched s Hex) as [Hlen Hend]
  end.
  split; [exact Hlen|]. intros Hstuck. specialize (Hend Hstuck).
  vm_compute in Hend. conn_ends Hend.
  all: simpl; repeat split; eauto 6.
Qed.

Lemma writeWARCFromConnection_barrier_never_waits_witness :
  let s0 := conn.start Demo.platform Demo.page
              {| io.data := Demo.dump_request Demo.get; io.fault := None |}
              {| io.data := "hello"; io.fault := None |} in
  (∃ s1, conn.exec [conn.Main] s0 = Some s1 ∧ conn.main s1 = conn.AtRecv 0)
  ∧ ∃ s, conn.exec [conn.Main; conn.ResponseTask; conn.RequestTask;
                    conn.ResponseTask; conn.RequestTask;
                    conn.Main; conn.Main; conn.Main] s0 = Some s
         ∧ conn.main s = conn.Returned
         ∧ conn.request s = conn.Releasing None
         ∧ conn.response s = conn.Releasing None.
Proof.
  intros s0.
  destruct (writeWARCFromConnection_barrier_never_waits Demo.platform Demo.page
              {| io.data := Demo.dump_request Demo.get; io.fault := None |}
              {| io.data := "hello"; io.fault := None |} _ _ eq_refl eq_refl)
    as [(s1 & H1 & Hm & _) Hruns].
  split; [exists s1; split; [exact H1 | exact Hm]|].
  destruct (conn.exec [conn.Main; conn.ResponseTask; conn.RequestTask;
                       conn.ResponseTask; conn.RequestTask;
                       conn.Main; conn.Main; conn.Main] s0) as [s|] eqn:Hex.
  - exists s. split; [reflexivity|].
    destruct (Hruns _ s Hex) as [_ Hend].
    destruct Hend as (Hmain & _ & _ & _ & Hq & Hr).
    + intros t. apply (f_equal (λ o, o ≫= conn.step t)) in Hex.
      destruct t; vm_compute in Hex; exact (eq_sym Hex).
    + split; [exact Hmain|]. split; [exact Hq | exact Hr].
  - vm_compute in Hex. discriminate Hex.
Defined.

(** Had [swg.Add()] been called once for each goroutine, the barrier would
    count, and the function would never get past it: each goroutine blocks
    on its send until the function receives, and the function waits for the
    goroutines to be done. Every run is stuck after two steps. *)
Lemma writeWARCFromConnection_counted_barrier_deadlocks
  (P : Platform) (URL : url.URL) (req resp : io.Reader) (rq rs : warc.Record_) :
  connRequestRecord P URL req = Ok rq →
  connResponseRecord P URL resp = Ok rs →
  ∀ sched s, conn.exec sched (conn.start_counted P URL req resp) = Some s →
    (length sched ≤ 2)%nat
    ∧ ((∀ t, conn.step t s = None) →
       conn.main s = conn.AtWait
       ∧ conn.request s = conn.Sending rq
       ∧ conn.response s = conn.Sending rs
       ∧ conn.WARCWriter s = []).
Proof.
  intros Hrq Hrs sched s. unfold conn.start_counted, conn.start.
  rewrite Hrq, Hrs. intros Hex.
  match type of Hex with conn.exec _ ?s0 = _ =>
    assert (Hnone : None ∉ conn.explore 2 s0)
      by (vm_compute;
          repeat (apply not_elem_of_cons; split; [discriminate|]);
          apply not_elem_of_nil);
    destruct (conn_explore_covers 2 s0 Hnone sched s Hex) as [Hlen Hend]
  end.
  split; [exact Hlen|]. intros Hstuck. specialize (Hend Hstuck).
  vm_compute in Hend. conn_ends Hend.
  all: by repeat split.
Qed.

(** * Fresh names for spool files *)

Lemma append_inv_tail (s1 s2 t : string) : s1 +:+ t = s2 +:+ t → s1 = s2.
Proof.
  revert s2. induction s1 as [|a s1 IH]; intros [|b s2] H.
  - reflexivity.
  - apply (f_equal String.length) in H.
    rewrite !length_append in H. simpl in H. lia.
  - apply (f_equal String.length) in H.
    rewrite !length_append in H. simpl in H. lia.
  - change (String a (s1 +:+ t) = String b (s2 +:+ t)) in H.
    injection H as -> H. f_equal. by apply IH.
Qed.

(** On [Unique.platform] different draws give different file names. *)
Lemma Unique_spool_name_inj (n m : nat) :
  spool_name Unique.platform (Demo.crawl 0) n
  = spool_name Unique.platform (Demo.crawl 0) m → n = m.
Proof.
  unfold spool_name. cbn -[pretty String.append].
  unfold Demo.join, Unique.new_v4.
  change ("6ba7b810-9dad-41d1-80b4-" +:+ pretty n +:+ ".temp")
    with (String "6" ("ba7b810-9dad-41d1-80b4-" +:+ pretty n +:+ ".temp")).
  change ("6ba7b810-9dad-41d1-80b4-" +:+ pretty m +:+ ".temp")
    with (String "6" ("ba7b810-9dad-41d1-80b4-" +:+ pretty m +:+ ".temp")).
  cbn -[pretty String.append]. intros H.
  change (("jobs/demo/temp/6ba7b810-9dad-41d1-80b4-" +:+ pretty n) +:+ ".temp"
          = ("jobs/demo/temp/6ba7b810-9dad-41d1-80b4-" +:+ pretty m) +:+ ".temp") in H.
  apply append_inv_tail, (inj (String.append _)) in H.
  by apply (inj pretty).
Qed.

(** C10. Let the names of different UUIDs differ and let no file bear the
    name of a UUID still to be drawn. Then [dumpResponseToFile] draws one
    UUID, and the name [{JobPath}/temp/{UUID}.temp] it makes of it is new: no
    file was there. Without error it returns that path and the file there
    holds exactly the bytes [resp.Write] emitted, all of them. With an error
    it returns the empty path and no file is left at that name: either the
    open failed, or the write failed and the partial file was removed. No
    other file is touched, and afterwards it is again true that no file
    bears the name of a UUID still to be drawn, so the next call gets a new
    name as well. *)
Theorem dumpResponseToFile_new_file_or_error
  (P : Platform) (c : Crawl) (resp : http.Response) (w : World) :
  (∀ n m, spool_name P c n = spool_name P c m → n = m) →
  undrawn_free P c w →
  let p := filepath_Join P [JobPath c; "temp"; uuid_NewV4 P (uuids w) +:+ ".temp"] in
  let '((path, err), w') := dumpResponseToFile P c resp w in
  fs w !! p = None
  ∧ uuids w' = S (uuids w)
  ∧ undrawn_free P c w'
  ∧ match err with
    | None =>
        path = p ∧ OpenFile_err P p = None
        ∧ (Response_Write P resp).2 = None
        ∧ fs w' !! p = Some (Response_Write P resp).1
    | Some e =>
        path = "" ∧ fs w' !! p = None
        ∧ (OpenFile_err P p = Some e
           ∨ (OpenFile_err P p = None ∧ (Response_Write P resp).2 = Some e))
    end
  ∧ ∀ q, q ≠ p → fs w' !! q = fs w !! q.
Proof.
  intros Hinj Hinv p.
  assert (Hfresh : fs w !! p = None) by (apply (Hinv (uuids w)); lia).
  pose proof (dumpResponseToFile_file_or_error P c resp w Hfresh) as Hcall.
  pose proof (dumpResponseToFile_frame P c resp w) as (_ & _ & Hu & Hframe).
  destruct (dumpResponseToFile P c resp w) as [[path err] w'].
  simpl in Hu, Hframe. destruct Hcall as [Hres Hother].
  split; [exact Hfresh|]. split; [exact Hu|]. split; [|by split].
  intros n Hn. rewrite Hu in Hn.
  rewrite Hframe; [apply Hinv; lia|].
  intros Heq. apply Hinj in Heq. lia.
Qed.

Lemma dumpResponseToFile_new_file_or_error_witness :
  let r := dumpResponseToFile Unique.platform (Demo.crawl 0)
             (Demo.response (-1) "hello") Demo.world in
  r.1 = ("jobs/demo/temp/6ba7b810-9dad-41d1-80b4-0.temp", None)
  ∧ uuids r.2 = 1%nat
  ∧ undrawn_free Unique.platform (Demo.crawl 0) r.2
  ∧ fs r.2 !! "jobs/demo/temp/6ba7b810-9dad-41d1-80b4-0.temp"
    = Some (Demo.serialize (Demo.response (-1) "hello")).
Proof.
  intros r. subst r.
  pose proof (dumpResponseToFile_new_file_or_error Unique.platform (Demo.crawl 0)
                (Demo.response (-1) "hello") Demo.world Unique_spool_name_inj
                (λ n _, eq_refl)) as H.
  assert (E : (dumpResponseToFile Unique.platform (Demo.crawl 0)
                 (Demo.response (-1) "hello") Demo.world).1
              = ("jobs/demo/temp/6ba7b810-9dad-41d1-80b4-0.temp", None))
    by (vm_compute; reflexivity).
  destruct (dumpResponseToFile Unique.platform (Demo.crawl 0)
              (Demo.response (-1) "hello") Demo.world) as [[path err] w'].
  simpl in E. injection E as -> ->.
  destruct H as (_ & Hu & Hinv & (_ & _ & _ & Hfile) & _).
  split; [reflexivity|]. split; [exact Hu|]. split; [exact Hinv | exact Hfile].
Defined.
